(** * Mindcalls dashboard frontend: a shallow embedding in Rocq

    The frontend (React, single-threaded event loop) is modelled as
    follows.  Every handler is a function from the component state and
    the responses the network gives back to an ordered list of events:
    React state setters of the component, and global effects (a request
    sent, a localStorage change, a page reload, a console error).  The
    state after the handler is the fold of its events.  This keeps the
    order of the setters, which the code fixes, observable. *)

From Stdlib Require Import ZArith.
From stdpp Require Import base list gmap strings pretty.
Local Open Scope string_scope.
Set Warnings "-register-all".

(** ** JavaScript values *)

(** JSON-like values as the code receives them from [response.json()]. *)
Inductive jsval :=
| JUndef
| JNull
| JBool (b : bool)
| JNum (z : Z)
| JStr (s : string)
| JArr (l : list jsval)
| JObj (fs : list (string * jsval)).

(** JavaScript truthiness. *)
Definition truthy (v : jsval) : bool :=
  match v with
  | JUndef | JNull => false
  | JBool b => b
  | JNum z => negb (Z.eqb z 0)
  | JStr s => negb (String.eqb s "")
  | JArr _ | JObj _ => true
  end.

(** [a || b] *)
Definition js_or (a b : jsval) : jsval := if truthy a then a else b.

Fixpoint assoc_get (k : string) (fs : list (string * jsval)) : jsval :=
  match fs with
  | [] => JUndef
  | (k', v) :: fs' => if String.eqb k k' then v else assoc_get k fs'
  end.

(** Property access [v.k]: [None] is the TypeError thrown on
    [undefined] and [null]; a missing property reads as [undefined]. *)
Definition get_prop (v : jsval) (k : string) : option jsval :=
  match v with
  | JUndef | JNull => None
  | JObj fs => Some (assoc_get k fs)
  | _ => Some JUndef
  end.

(** ** Strings: [String.prototype.includes] and [trim] *)

Fixpoint prefixb (p s : string) : bool :=
  match p, s with
  | EmptyString, _ => true
  | String a p', String b s' => Ascii.eqb a b && prefixb p' s'
  | String _ _, EmptyString => false
  end.

(** [s.includes(p)] *)
Fixpoint includes (s p : string) : bool :=
  prefixb p s ||
  match s with
  | EmptyString => false
  | String _ s' => includes s' p
  end.

(** The characters [String.prototype.trim] removes, on the UTF-8 bytes
    of a string: the length in bytes of the white space or line
    terminator code point [s] starts with, 0 when it starts with none.
    These are TAB, LF, VT, FF, CR, SPACE, U+00A0, U+1680, U+2000-U+200A,
    U+2028, U+2029, U+202F, U+205F, U+3000 and U+FEFF.  A lead byte
    (below 0x80 or from 0xC2) always starts a code point, so the test
    can be made at every byte. *)
Definition ws_len (s : string) : nat :=
  match s with
  | EmptyString => 0
  | String a s1 =>
      let n := Ascii.nat_of_ascii a in
      if (9 <=? n)%nat && (n <=? 13)%nat || (n =? 32)%nat then 1 else
      match s1 with
      | EmptyString => 0
      | String b s2 =>
          let m := Ascii.nat_of_ascii b in
          if (n =? 194)%nat && (m =? 160)%nat then 2 else
          match s2 with
          | EmptyString => 0
          | String c _ =>
              let k := Ascii.nat_of_ascii c in
              if (n =? 225)%nat && (m =? 154)%nat && (k =? 128)%nat then 3
              else if (n =? 226)%nat && (m =? 128)%nat &&
                      ((128 <=? k)%nat && (k <=? 138)%nat || (k =? 168)%nat
                       || (k =? 169)%nat || (k =? 175)%nat) then 3
              else if (n =? 226)%nat && (m =? 129)%nat && (k =? 159)%nat then 3
              else if (n =? 227)%nat && (m =? 128)%nat && (k =? 128)%nat then 3
              else if (n =? 239)%nat && (m =? 187)%nat && (k =? 191)%nat then 3
              else 0
          end
      end
  end.

Fixpoint str_drop (n : nat) (s : string) : string :=
  match n, s with
  | O, _ => s
  | S n', EmptyString => EmptyString
  | S n', String _ s' => str_drop n' s'
  end.

Fixpoint str_take (n : nat) (s : string) : string :=
  match n, s with
  | O, _ => EmptyString
  | S n', EmptyString => EmptyString
  | S n', String c s' => String c (str_take n' s')
  end.

(** [String.prototype.trim]: leading and trailing white space code
    points are removed.  Every step consumes at least one byte, so the
    length of the string is enough fuel. *)
Fixpoint trim_start_go (fuel : nat) (s : string) : string :=
  match fuel with
  | O => s
  | S f => match ws_len s with O => s | k => trim_start_go f (str_drop k s) end
  end.

Fixpoint trim_end_go (fuel : nat) (s : string) : string :=
  match fuel, s with
  | O, _ => s
  | S _, EmptyString => EmptyString
  | S f, String c s' =>
      match ws_len s with
      | O => String c (trim_end_go f s')
      | k => let t := trim_end_go f (str_drop k s) in
             if String.eqb t "" then "" else String.append (str_take k s) t
      end
  end.

Definition trim_start (s : string) : string := trim_start_go (String.length s) s.

Definition trim_end (s : string) : string := trim_end_go (String.length s) s.

Definition js_trim (s : string) : string := trim_end (trim_start s).

(** [!s.trim()] *)
Definition all_space (s : string) : bool := String.eqb (js_trim s) "".

(** ** Global effects: localStorage, reload, network, console *)

(** The requests the frontend sends, with their JSON bodies. *)
Inductive request :=
| GetReq (endpoint : string)            (* GET overview, themes, ... *)
| GetInterview (interview_id : jsval)   (* GET interview/${interviewId} *)
| PostEdit (interview_id segment_id edited_text : jsval)
| PostTag (interview_id segment_id sentiment theme notes : jsval)
| PostChat (question : string).

Record env := mkEnv {
  storage : gmap string string;      (* window.localStorage *)
  reload_requested : bool;           (* window.location.reload() called *)
  sent : list request;               (* fetch calls issued, in order *)
  errors_logged : nat                (* console.error calls *)
}.

Inductive gev :=
| GSend (r : request)
| GClearAuth
| GReload
| GLog.

(** [clearStoredAuth] *)
Definition clearStoredAuth (st : gmap string string) : gmap string string :=
  delete "access_level" (delete "user_email" (delete "access_token" st)).

Definition apply_gev (e : env) (g : gev) : env :=
  match g with
  | GSend r => mkEnv (storage e) (reload_requested e) (sent e ++ [r]) (errors_logged e)
  | GClearAuth => mkEnv (clearStoredAuth (storage e)) (reload_requested e) (sent e) (errors_logged e)
  | GReload => mkEnv (storage e) true (sent e) (errors_logged e)
  | GLog => mkEnv (storage e) (reload_requested e) (sent e) (S (errors_logged e))
  end.

(** Events of a component with local setter events [E]. *)
Inductive ev (E : Type) :=
| Eff (g : gev)
| Upd (u : E).
Arguments Eff {E} g.
Arguments Upd {E} u.

Section Run.
Context {S E : Type} (apply_upd : S -> E -> S).

Definition apply_ev (w : env * S) (x : ev E) : env * S :=
  match x with
  | Eff g => (apply_gev w.1 g, w.2)
  | Upd u => (w.1, apply_upd w.2 u)
  end.

Definition run (w : env * S) (xs : list (ev E)) : env * S :=
  fold_left apply_ev xs w.
End Run.

(** ** The API gateway client [apiCall] *)

(** What [fetch] gives back: a response with a status and a body
    ([None] when [response.json()] fails), or a rejected promise. *)
Inductive http :=
| Http (status : Z) (body : option jsval)
| NetworkError.

(** How the promise returned by [apiCall] settles: resolved with a
    value ([undefined] after a 401), or rejected. *)
Inductive outcome :=
| Resolved (v : jsval)
| Thrown.

(** [apiCall(endpoint, options)]: the global effects, in order, and the
    settlement.  The fetch is issued first; on 401 the stored session is
    cleared, a reload is requested and the call returns [undefined];
    every other failure is logged in the catch block and rethrown. *)
Definition apiCall (r : request) (resp : http) : list gev * outcome :=
  match resp with
  | NetworkError => ([GSend r; GLog], Thrown)
  | Http status body =>
      if Z.eqb status 401 then ([GSend r; GClearAuth; GReload], Resolved JUndef)
      else if negb ((200 <=? status) && (status <=? 299))%Z
      then ([GSend r; GLog], Thrown)
      else match body with
           | Some v => ([GSend r], Resolved v)
           | None => ([GSend r; GLog], Thrown)
           end
  end.

Definition effs {E} (gs : list gev) : list (ev E) := map Eff gs.

(** Structural equality of values. *)
Fixpoint jsval_eqb (a b : jsval) : bool :=
  match a, b with
  | JUndef, JUndef | JNull, JNull => true
  | JBool x, JBool y => Bool.eqb x y
  | JNum x, JNum y => Z.eqb x y
  | JStr x, JStr y => String.eqb x y
  | JArr xs, JArr ys =>
      (fix go xs ys := match xs, ys with
        | [], [] => true
        | x :: xs', y :: ys' => jsval_eqb x y && go xs' ys'
        | _, _ => false end) xs ys
  | JObj xs, JObj ys =>
      (fix go xs ys := match xs, ys with
        | [], [] => true
        | (k, x) :: xs', (k', y) :: ys' =>
            String.eqb k k' && jsval_eqb x y && go xs' ys'
        | _, _ => false end) xs ys
  | _, _ => false
  end.

(** [a === b]: primitives by value; arrays and objects decoded from
    separate JSON responses are distinct references. *)
Definition strict_eq (a b : jsval) : bool :=
  match a, b with
  | JUndef, JUndef | JNull, JNull => true
  | JBool x, JBool y => Bool.eqb x y
  | JNum x, JNum y => Z.eqb x y
  | JStr x, JStr y => String.eqb x y
  | _, _ => false
  end.

(** ** Transcript segments *)

(** A segment object of [fullTranscript.segments], read field by field. *)
Record segment := mkSegment {
  seg_id : jsval;
  speaker : jsval;
  text : jsval;
  edited_text : jsval;
  seg_editable : jsval;
  seg_tags : jsval
}.

Definition seg_of (v : jsval) : segment :=
  match v with
  | JObj fs => mkSegment (assoc_get "id" fs) (assoc_get "speaker" fs)
                 (assoc_get "text" fs) (assoc_get "edited_text" fs)
                 (assoc_get "editable" fs) (assoc_get "tags" fs)
  | _ => mkSegment JUndef JUndef JUndef JUndef JUndef JUndef
  end.

(** [fullTranscript.segments && fullTranscript.segments.length > 0]
    selects the segmented view; otherwise the flat transcript is shown
    and no [SegmentDisplay] is mounted. *)
Definition segments_of (ft : jsval) : list segment :=
  match get_prop ft "segments" with
  | Some (JArr ((_ :: _) as l)) => map seg_of l
  | _ => []
  end.

(** What [SegmentDisplay] shows as the segment's text. *)
Inductive seg_body :=
| Textarea (value : jsval)
| Paragraph (shown : jsval).

(** [editingSegment === segment.id ? <textarea value={editText}/>
      : <p>{segment.edited_text || segment.text}</p>] *)
Definition segment_body (editingSegment editText : jsval) (s : segment) : seg_body :=
  if strict_eq editingSegment (seg_id s) then Textarea editText
  else Paragraph (js_or (edited_text s) (text s)).

(** ** The reader widget [EnhancedInterviewReaderWidget] *)

(** [user?.accessLevel?.includes('Premium') || user?.accessLevel?.includes('Admin')].
    A string level is searched for a substring, an array level for an
    element; on any other value [.includes] is not a function and the
    render fails, so no editing UI is shown (read as false). *)
Definition isEditable (user : jsval) : bool :=
  match get_prop user "accessLevel" with
  | Some (JStr lvl) => includes lvl "Premium" || includes lvl "Admin"
  | Some (JArr l) => existsb (jsval_eqb (JStr "Premium")) l
                     || existsb (jsval_eqb (JStr "Admin")) l
  | _ => false
  end.

(** The state of the widget ([useState] hooks) and of its mounted
    [SegmentDisplay] children: [tag_open] lists the React keys
    ([segment.id]) whose [showTagging] is true. *)
Record reader := mkReader {
  selectedInterview : jsval;
  fullTranscript : jsval;
  loadingTranscript : bool;
  editingSegment : jsval;
  editText : jsval;
  tag_open : list jsval
}.

Definition init_reader : reader := mkReader JNull JNull false JNull (JStr "") [].

Inductive rupd :=
| SetSelected (v : jsval)
| SetFull (v : jsval)
| SetLoadingT (b : bool)
| SetEditing (v : jsval)
| SetEditText (v : jsval)
| SetShowTagging (key : jsval) (b : bool).

Definition set_open (key : jsval) (b : bool) (l : list jsval) : list jsval :=
  let l' := List.filter (fun k => negb (jsval_eqb k key)) l in
  if b then key :: l' else l'.

(** While [loadingTranscript] is true the spinner replaces the
    transcript, so every [SegmentDisplay] unmounts and its local
    [showTagging] is lost. *)
Definition apply_rupd (r : reader) (u : rupd) : reader :=
  match u with
  | SetSelected v => mkReader v (fullTranscript r) (loadingTranscript r)
                       (editingSegment r) (editText r) (tag_open r)
  | SetFull v => mkReader (selectedInterview r) v (loadingTranscript r)
                   (editingSegment r) (editText r) (tag_open r)
  | SetLoadingT b => mkReader (selectedInterview r) (fullTranscript r) b
                       (editingSegment r) (editText r)
                       (if b then [] else tag_open r)
  | SetEditing v => mkReader (selectedInterview r) (fullTranscript r)
                      (loadingTranscript r) v (editText r) (tag_open r)
  | SetEditText v => mkReader (selectedInterview r) (fullTranscript r)
                       (loadingTranscript r) (editingSegment r) v (tag_open r)
  | SetShowTagging k b => mkReader (selectedInterview r) (fullTranscript r)
                            (loadingTranscript r) (editingSegment r)
                            (editText r) (set_open k b (tag_open r))
  end.

Definition run_reader (w : env * reader) (xs : list (ev rupd)) : env * reader :=
  run apply_rupd w xs.

(** The segments currently mounted. *)
Definition rendered_segments (r : reader) : list segment :=
  if loadingTranscript r then []
  else if truthy (fullTranscript r) then segments_of (fullTranscript r) else [].

(** [fetchFullTranscript(interviewId)] *)
Definition fetchFullTranscript (interviewId : jsval) (resp : http) : list (ev rupd) :=
  let '(gs, o) := apiCall (GetInterview interviewId) resp in
  [Upd (SetLoadingT true)] ++ effs gs ++
  match o with
  | Resolved data => [Upd (SetFull data); Upd (SetSelected interviewId)]
  | Thrown => [Eff GLog]
  end ++ [Upd (SetLoadingT false)].

(** [handleEditSegment(segmentId, newText)]; [editable] is the widget's
    [isEditable], [sel] its [selectedInterview].  The POST response and
    the re-fetch response are the two network answers. *)
Definition handleEditSegment (editable : bool) (sel segmentId newText : jsval)
    (r_post r_get : http) : list (ev rupd) :=
  if negb editable then [] else
  let '(gs, o) := apiCall (PostEdit sel segmentId newText) r_post in
  effs gs ++
  match o with
  | Resolved _ => fetchFullTranscript sel r_get ++ [Upd (SetEditing JNull)]
  | Thrown => [Eff GLog]
  end.

(** [handleTagSegment(segmentId, sentiment, theme, notes)] *)
Definition handleTagSegment (editable : bool) (sel segmentId sentiment theme notes : jsval)
    (r_post r_get : http) : list (ev rupd) :=
  if negb editable then [] else
  let '(gs, o) := apiCall (PostTag sel segmentId sentiment theme notes) r_post in
  effs gs ++
  match o with
  | Resolved _ => fetchFullTranscript sel r_get
  | Thrown => [Eff GLog]
  end.

(** [SegmentDisplay.saveTags]: [onTag(...)] is not awaited.  Its body
    runs synchronously up to the [fetch] of [apiCall]; then
    [setShowTagging(false)] runs, and the rest of [onTag] runs when the
    request settles. *)
Definition saveTags (key : jsval) (tag_evs : list (ev rupd)) : list (ev rupd) :=
  match tag_evs with
  | [] => [Upd (SetShowTagging key false)]
  | x :: rest => x :: Upd (SetShowTagging key false) :: rest
  end.

(** User actions on the widget.  Handlers are run to completion one at a
    time (each request is answered before the next click). *)
Inductive action :=
| ClickInterview (id : jsval) (resp : http)
| StartEdit (s : segment)
| TypeEdit (value : string)
| SaveEdit (s : segment) (r_post r_get : http)
| CancelEdit (s : segment)
| ToggleTag (s : segment)
| CancelTag (s : segment)
| SaveTags (s : segment) (sentiment theme notes : jsval) (r_post r_get : http).

Definition seg_eqb (s t : segment) : bool :=
  jsval_eqb (seg_id s) (seg_id t) && jsval_eqb (speaker s) (speaker t)
  && jsval_eqb (text s) (text t) && jsval_eqb (edited_text s) (edited_text t)
  && jsval_eqb (seg_editable s) (seg_editable t) && jsval_eqb (seg_tags s) (seg_tags t).

Definition In_b (s : segment) (l : list segment) : bool := existsb (seg_eqb s) l.

Definition is_editing (r : reader) (s : segment) : bool :=
  strict_eq (editingSegment r) (seg_id s).

Definition is_tag_open (r : reader) (s : segment) : bool :=
  existsb (jsval_eqb (seg_id s)) (tag_open r).

(** The events a click produces, or [None] when the control clicked is
    not on screen.  [prop] is the [isEditable] prop the widget passes,
    [isEditable && segment.editable]; the buttons need
    [isEditable && segment.editable] once more inside [SegmentDisplay]. *)
Definition react (user : jsval) (r : reader) (a : action) : option (list (ev rupd)) :=
  let editable := isEditable user in
  let mounted s := In_b s (rendered_segments r) in
  let prop s := editable && truthy (seg_editable s) in
  let buttons s := mounted s && prop s && truthy (seg_editable s) in
  match a with
  | ClickInterview id resp => Some (fetchFullTranscript id resp)
  | StartEdit s =>
      if buttons s && negb (is_editing r s)
      then Some [Upd (SetEditing (seg_id s));
                 Upd (SetEditText (js_or (edited_text s) (text s)))]
      else None
  | TypeEdit v =>
      if existsb (is_editing r) (rendered_segments r)
      then Some [Upd (SetEditText (JStr v))] else None
  | SaveEdit s r_post r_get =>
      if buttons s && is_editing r s
      then Some (handleEditSegment editable (selectedInterview r) (seg_id s)
                   (editText r) r_post r_get)
      else None
  | CancelEdit s =>
      if buttons s && is_editing r s
      then Some [Upd (SetEditing JNull); Upd (SetEditText (JStr ""))]
      else None
  | ToggleTag s =>
      if buttons s && negb (is_editing r s)
      then Some [Upd (SetShowTagging (seg_id s) (negb (is_tag_open r s)))]
      else None
  | CancelTag s =>
      if mounted s && is_tag_open r s && prop s
      then Some [Upd (SetShowTagging (seg_id s) false)] else None
  | SaveTags s se th no r_post r_get =>
      if mounted s && is_tag_open r s && prop s
      then Some (saveTags (seg_id s)
                  (handleTagSegment editable (selectedInterview r) (seg_id s)
                     se th no r_post r_get))
      else None
  end.

Definition step (user : jsval) (w : env * reader) (a : action) : env * reader :=
  match react user w.2 a with
  | Some xs => run_reader w xs
  | None => w
  end.

Definition run_actions (user : jsval) (w : env * reader) (acts : list action) : env * reader :=
  fold_left (step user) acts w.

(** ** The top-level coordinator [App] *)

Record app := mkApp {
  overview : jsval;
  themes : jsval;
  ratings : jsval;
  interviews : jsval;
  isLoading : bool;
  error : jsval;
  lastUpdated : jsval
}.

Inductive aupd :=
| SetOverview (v : jsval)
| SetThemes (v : jsval)
| SetRatings (v : jsval)
| SetInterviews (v : jsval)
| SetIsLoading (b : bool)
| SetError (v : jsval)
| SetLastUpdated (v : jsval).

Definition apply_aupd (a : app) (u : aupd) : app :=
  match u with
  | SetOverview v => mkApp v (themes a) (ratings a) (interviews a) (isLoading a) (error a) (lastUpdated a)
  | SetThemes v => mkApp (overview a) v (ratings a) (interviews a) (isLoading a) (error a) (lastUpdated a)
  | SetRatings v => mkApp (overview a) (themes a) v (interviews a) (isLoading a) (error a) (lastUpdated a)
  | SetInterviews v => mkApp (overview a) (themes a) (ratings a) v (isLoading a) (error a) (lastUpdated a)
  | SetIsLoading b => mkApp (overview a) (themes a) (ratings a) (interviews a) b (error a) (lastUpdated a)
  | SetError v => mkApp (overview a) (themes a) (ratings a) (interviews a) (isLoading a) v (lastUpdated a)
  | SetLastUpdated v => mkApp (overview a) (themes a) (ratings a) (interviews a) (isLoading a) (error a) v
  end.

Definition run_app (w : env * app) (xs : list (ev aupd)) : env * app :=
  run apply_aupd w xs.

(** The four requests of the batch, by position in [Promise.all]. *)
Definition dash_endpoints : list string := ["overview"; "themes"; "ratings"; "interviews"].

Definition dash_req (i : nat) : request := GetReq (nth i dash_endpoints "").

Definition fetch_error_msg : jsval :=
  JStr "Kunne ikke indlæse dashboard data. Tjek din internetforbindelse.".

Section FetchAll.
Variables (showLoading : bool) (now : jsval).

(** [finally { if (showLoading) setIsLoading(false); }] *)
Definition finally_evs : list (ev aupd) :=
  if showLoading then [Upd (SetIsLoading false)] else [].

(** [catch (error) { console.error(...); setError(...); }] *)
Definition catch_evs : list (ev aupd) := [Eff GLog; Upd (SetError fetch_error_msg)].

(** The code after [await Promise.all(...)], given the four results
    in order; reading a property of [undefined] throws into the catch. *)
Definition fulfilled_cont (vs : nat -> jsval) : list (ev aupd) :=
  Upd (SetOverview (vs 0%nat)) ::
  match get_prop (vs 1%nat) "themes" with
  | None => catch_evs
  | Some th =>
      Upd (SetThemes (js_or th (JArr []))) ::
      match get_prop (vs 2%nat) "ratings" with
      | None => catch_evs
      | Some ra =>
          Upd (SetRatings (js_or ra (JObj []))) ::
          match get_prop (vs 3%nat) "interviews" with
          | None => catch_evs
          | Some iv => [Upd (SetInterviews (js_or iv (JArr []))); Upd (SetLastUpdated now)]
          end
      end
  end ++ finally_evs.

Definition rejected_cont : list (ev aupd) := catch_evs ++ finally_evs.

Definition all_in (acc : list (nat * jsval)) : bool :=
  forallb (fun i => existsb (fun p => Nat.eqb p.1 i) acc) [0; 1; 2; 3]%nat.

Definition result_at (acc : list (nat * jsval)) (i : nat) : jsval :=
  match find (fun p => Nat.eqb p.1 i) acc with Some p => p.2 | None => JUndef end.

(** The four requests settle one by one, in the order of [xs]
    (position in the batch, response).  [Promise.all] rejects at the
    first rejection and fulfils when the last of the four fulfils;
    settlements after that only run [apiCall]'s own effects. *)
Fixpoint settle (settled : bool) (acc : list (nat * jsval)) (xs : list (nat * http))
    : list (ev aupd) :=
  match xs with
  | [] => []
  | (i, resp) :: xs' =>
      let '(gs, o) := apiCall (dash_req i) resp in
      effs (tail gs) ++
      if settled then settle true acc xs'
      else match o with
           | Thrown => rejected_cont ++ settle true acc xs'
           | Resolved v =>
               let acc' := (i, v) :: acc in
               if all_in acc' then fulfilled_cont (result_at acc') ++ settle true acc' xs'
               else settle false acc' xs'
           end
  end.

(** [fetchAllData(showLoading)] *)
Definition fetchAllData (xs : list (nat * http)) : list (ev aupd) :=
  (if showLoading then [Upd (SetIsLoading true)] else []) ++
  [Upd (SetError JNull)] ++
  map (fun i => Eff (GSend (dash_req i))) [0; 1; 2; 3]%nat ++
  settle false [] xs.
End FetchAll.

(** [handleRetry] *)
Definition handleRetry (now : jsval) (xs : list (nat * http)) : list (ev aupd) :=
  fetchAllData true now xs.

(** The batch as a promise combinator, on the settlement outcomes. *)
Inductive batch :=
| BPending
| BFulfilled (acc : list (nat * jsval))
| BRejected.

Fixpoint promise_all (acc : list (nat * jsval)) (os : list (nat * outcome)) : batch :=
  match os with
  | [] => BPending
  | (i, Thrown) :: _ => BRejected
  | (i, Resolved v) :: os' =>
      let acc' := (i, v) :: acc in
      if all_in acc' then BFulfilled acc' else promise_all acc' os'
  end.

Definition outcomes (xs : list (nat * http)) : list (nat * outcome) :=
  map (fun p => (p.1, (apiCall (dash_req p.1) p.2).2)) xs.

(** The view [App] settles on after mounting: the dashboard when
    [getStoredToken()] and [getStoredUser().email] are truthy. *)
Inductive view := LandingView | DashboardView.

Definition js_str_opt (o : option string) : jsval :=
  match o with Some s => JStr s | None => JNull end.

Definition mount_view (st : gmap string string) : view :=
  if truthy (js_str_opt (st !! "access_token")) && truthy (js_str_opt (st !! "user_email"))
  then DashboardView else LandingView.

(** ** The chat widget [ChatWidget] *)







(** ** Conversions: [Number.prototype.toString], [String(v)], [padStart] *)

(** [String(v)], as [localStorage.setItem] stores its value: an array is
    joined with commas, its [null] and [undefined] elements read as the
    empty string; a plain object is ["[object Object]"]. *)
Fixpoint js_to_string (v : jsval) : string :=
  match v with
  | JUndef => "undefined"
  | JNull => "null"
  | JBool b => if b then "true" else "false"
  | JNum z => pretty z
  | JStr s => s
  | JArr l =>
      (fix go (l : list jsval) : string :=
         match l with
         | [] => ""
         | x :: l' =>
             match x with JUndef | JNull => "" | _ => js_to_string x end
             +:+ match l' with [] => "" | _ :: _ => "," +:+ go l' end
         end) l
  | JObj _ => "[object Object]"
  end.

(** ** The interview filter of the reader widget *)

(** [v?.k] *)
Definition opt_prop (v : jsval) (k : string) : jsval :=
  match get_prop v k with Some x => x | None => JUndef end.

(** [Array.prototype.filter]: the predicate runs on the elements in
    order and the first exception propagates. *)
Fixpoint filter_opt {A} (p : A -> option bool) (l : list A) : option (list A) :=
  match l with
  | [] => Some []
  | x :: l' =>
      match p x with
      | None => None
      | Some b =>
          match filter_opt p l' with
          | None => None
          | Some r => Some (if b then x :: r else r)
          end
      end
  end.

(** The filter is stated for any [String.prototype.toLowerCase]: its
    Unicode case mapping is not modelled. *)
Section Filter.
Variable toLowerCase : string -> string.

(** [x.toLowerCase()]: only strings have the method; on any other value
    the call is a TypeError and the render fails ([None]). *)
Definition lower_of (v : jsval) : option string :=
  match v with JStr s => Some (toLowerCase s) | _ => None end.

(** The predicate passed to [interviewsArray.filter]; the transcript is
    only read when the supermarket does not match ([||]). *)
Definition matches_filter (filter : string) (interview : jsval) : option bool :=
  match lower_of (js_or (opt_prop interview "supermarket") (JStr "")) with
  | None => None
  | Some a =>
      if includes a (toLowerCase filter) then Some true
      else match lower_of (js_or (opt_prop interview "transcript") (JStr "")) with
           | None => None
           | Some b => Some (includes b (toLowerCase filter))
           end
  end.

(** [filteredInterviews]; [None] when the filter throws. *)
Definition filteredInterviews (interviews : jsval) (filter : string) : option (list jsval) :=
  let interviewsArray := match interviews with JArr l => l | _ => [] end in
  filter_opt (matches_filter filter) interviewsArray.

End Filter.

(** An instance of [toLowerCase] that agrees with it on ASCII strings:
    the letters A-Z are lowered, every other byte is kept. *)
Definition lower_ascii (c : Ascii.ascii) : Ascii.ascii :=
  let n := Ascii.nat_of_ascii c in
  if (65 <=? n)%nat && (n <=? 90)%nat then Ascii.ascii_of_nat (n + 32) else c.

Fixpoint ascii_to_lower (s : string) : string :=
  match s with
  | EmptyString => EmptyString
  | String c s' => String (lower_ascii c) (ascii_to_lower s')
  end.

(** ** The login form [LandingPage] *)

Record landing := mkLanding {
  email : string;
  accessCode : string;
  lpLoading : bool;
  lpError : jsval
}.

(** Setters of the form, and its global effects: the login POST, a
    [localStorage.setItem], a [console.error], the [onLogin] callback. *)
Inductive lev :=
| LSetLoading (b : bool)
| LSetError (v : jsval)
| LPostLogin (email access_code : string)
| LSetItem (key value : string)
| LLog
| LOnLogin (data : jsval).

Record lworld := mkLWorld {
  lw_storage : gmap string string;
  lw_posts : list (string * string);
  lw_logins : list jsval;
  lw_logged : nat;
  lw_page : landing
}.

Definition apply_lev (w : lworld) (x : lev) : lworld :=
  let p := lw_page w in
  match x with
  | LSetLoading b =>
      mkLWorld (lw_storage w) (lw_posts w) (lw_logins w) (lw_logged w)
        (mkLanding (email p) (accessCode p) b (lpError p))
  | LSetError v =>
      mkLWorld (lw_storage w) (lw_posts w) (lw_logins w) (lw_logged w)
        (mkLanding (email p) (accessCode p) (lpLoading p) v)
  | LPostLogin m c =>
      mkLWorld (lw_storage w) (lw_posts w ++ [(m, c)]) (lw_logins w) (lw_logged w) p
  | LSetItem k v =>
      mkLWorld (<[k := v]> (lw_storage w)) (lw_posts w) (lw_logins w) (lw_logged w) p
  | LLog => mkLWorld (lw_storage w) (lw_posts w) (lw_logins w) (S (lw_logged w)) p
  | LOnLogin d => mkLWorld (lw_storage w) (lw_posts w) (lw_logins w ++ [d]) (lw_logged w) p
  end.

Definition run_landing (w : lworld) (xs : list lev) : lworld := fold_left apply_lev xs w.

Definition login_failed_msg : jsval := JStr "Login fejlede. Tjek din email og adgangskode.".

Definition network_msg : jsval := JStr "Netværksfejl. Prøv igen.".

(** [handleSubmit]: the body of [fetch] is read with [response.json()]
    ([None]: not JSON, a rejection) before [response.ok] is tested;
    reading a property of [null] throws into the catch block. *)
Definition handleSubmit (lp : landing) (resp : http) : list lev :=
  [LSetLoading true; LSetError (JStr "");
   LPostLogin (js_trim (email lp)) (js_trim (accessCode lp))] ++
  match resp with
  | Http status (Some data) =>
      if ((200 <=? status) && (status <=? 299))%Z then
        match get_prop data "access_token", get_prop data "email",
              get_prop data "access_level" with
        | Some t, Some m, Some l =>
            [LSetItem "access_token" (js_to_string t);
             LSetItem "user_email" (js_to_string m);
             LSetItem "access_level" (js_to_string l); LOnLogin data]
        | _, _, _ => [LLog; LSetError network_msg]
        end
      else match get_prop data "detail" with
           | Some d => [LSetError (js_or d login_failed_msg)]
           | None => [LLog; LSetError network_msg]
           end
  | _ => [LLog; LSetError network_msg]
  end ++ [LSetLoading false].

(** ** Authentication state of [App] *)

Record shell := mkShell {
  isAuthenticated : bool;
  user : jsval;
  dash : app
}.

Inductive supd :=
| SetIsAuthenticated (b : bool)
| SetUser (v : jsval)
| DashUpd (u : aupd).

Definition apply_supd (sh : shell) (u : supd) : shell :=
  match u with
  | SetIsAuthenticated b => mkShell b (user sh) (dash sh)
  | SetUser v => mkShell (isAuthenticated sh) v (dash sh)
  | DashUpd u => mkShell (isAuthenticated sh) (user sh) (apply_aupd (dash sh) u)
  end.

Definition run_shell (w : env * shell) (xs : list (ev supd)) : env * shell :=
  run apply_supd w xs.

(** The initial values of the [useState] hooks of [App]. *)
Definition init_app : app := mkApp JNull (JArr []) (JObj []) (JArr []) true JNull JNull.

Definition init_shell : shell := mkShell false JNull init_app.

(** [getStoredUser()] *)
Definition getStoredUser (st : gmap string string) : jsval :=
  JObj [("email", js_str_opt (st !! "user_email"));
        ("accessLevel", js_str_opt (st !! "access_level"))].

(** The mount effect of [App] checking the stored session. *)
Definition checkAuth (st : gmap string string) : list (ev supd) :=
  if truthy (js_str_opt (st !! "access_token")) && truthy (opt_prop (getStoredUser st) "email")
  then [Upd (SetIsAuthenticated true); Upd (SetUser (getStoredUser st));
        Upd (DashUpd (SetIsLoading false))]
  else [Upd (DashUpd (SetIsLoading false))].

(** [handleLogin(loginData)], the [onLogin] callback of [LandingPage]. *)
Definition handleLogin (loginData : jsval) : list (ev supd) :=
  Upd (SetIsAuthenticated true) ::
  match get_prop loginData "email", get_prop loginData "access_level" with
  | Some m, Some l => [Upd (SetUser (JObj [("email", m); ("accessLevel", l)]))]
  | _, _ => []
  end.

(** [handleLogout] *)
Definition handleLogout : list (ev supd) :=
  [Eff GClearAuth; Upd (SetIsAuthenticated false); Upd (SetUser JNull);
   Upd (DashUpd (SetOverview JNull)); Upd (DashUpd (SetThemes (JArr [])));
   Upd (DashUpd (SetRatings (JObj []))); Upd (DashUpd (SetInterviews (JArr [])))].

(** ** [fetchThemes], the mount effect of the reader widget *)

(** The only setter is [setAvailableThemes]; its event carries the new
    value. *)
Definition fetchThemes (resp : http) : list (ev jsval) :=
  let '(gs, o) := apiCall (GetReq "themes/available") resp in
  effs gs ++
  match o with
  | Resolved data =>
      match get_prop data "themes" with
      | Some th => [Upd (js_or th (JArr []))]
      | None => [Eff GLog]
      end
  | Thrown => [Eff GLog]
  end.

Definition set_value (_ v : jsval) : jsval := v.

(** ** Concrete inputs used by the examples and witnesses *)

Definition seg3_json : jsval :=
  JObj [("id", JStr "seg-3"); ("speaker", JStr "customer");
        ("text", JStr "Godt udvalg"); ("edited_text", JStr "");
        ("editable", JBool true)].

Definition seg4_json : jsval :=
  JObj [("id", JStr "seg-4"); ("speaker", JStr "AI");
        ("text", JStr "Hvad synes du om priserne?"); ("editable", JBool true)].

Definition detail7 : jsval :=
  JObj [("id", JStr "int-7"); ("supermarket", JStr "Netto");
        ("segments", JArr [seg3_json; seg4_json])].

Definition detail8 : jsval :=
  JObj [("id", JStr "int-8"); ("supermarket", JStr "Rema");
        ("segments", JArr [seg4_json])].

Definition seg3 : segment := seg_of seg3_json.
Definition seg4 : segment := seg_of seg4_json.

Definition reader7 : reader := mkReader (JStr "int-7") detail7 false JNull (JStr "") [].

Definition user_with_level (lvl : string) : jsval :=
  JObj [("email", JStr "a@b.dk"); ("accessLevel", JStr lvl)].

Definition env0 : env :=
  mkEnv (<["access_token" := "tok"]> (<["user_email" := "a@b.dk"]>
           (<["access_level" := "Premium"]> (∅ : gmap string string))))
        false [] 0.

Definition ok (v : jsval) : http := Http 200 (Some v).


Definition reader7_a_open : reader :=
  mkReader (JStr "int-7") detail7 false JNull (JStr "") [JStr "seg-3"].

Definition app0 : app := mkApp JNull (JArr []) (JObj []) (JArr []) true JNull JNull.

Definition only_refetches (l : list request) : Prop :=
  Forall (fun q => exists id, q = GetInterview id) l.

Definition no_edit_inv (e0 : env) (w : env * reader) : Prop :=
  editingSegment w.2 = JNull /\ tag_open w.2 = [] /\
  exists extra, sent w.1 = (sent e0 ++ extra)%list /\ only_refetches extra.

(** ** Setter events and sent requests of an event list *)

Fixpoint upds {E} (xs : list (ev E)) : list E :=
  match xs with
  | [] => []
  | Upd u :: xs' => u :: upds xs'
  | Eff _ :: xs' => upds xs'
  end.

Fixpoint sends {E} (xs : list (ev E)) : list request :=
  match xs with
  | [] => []
  | Eff (GSend q) :: xs' => q :: sends xs'
  | _ :: xs' => sends xs'
  end.

(** ** Sanity checks on concrete inputs *)

Example includes_premium_trial : includes "Premium-trial" "Premium" = true.
Proof. reflexivity. Qed.

Example all_space_blank : all_space " a " = false /\ all_space "   " = true.
Proof. split; reflexivity. Qed.

Example apiCall_401 :
  apiCall (GetReq "overview") (Http 401 None)
  = ([GSend (GetReq "overview"); GClearAuth; GReload], Resolved JUndef).
Proof. reflexivity. Qed.

Example display_empty_override :
  segment_body JNull (JStr "")
    (mkSegment (JStr "s1") (JStr "AI") (JStr "hej") (JStr "") (JBool true) JUndef)
  = Paragraph (JStr "hej").
Proof. reflexivity. Qed.

(** ** General lemmas *)

Section RunLemmas.
Context {S E : Type} (f : S -> E -> S).

Lemma run_concat (w : env * S) (xs ys : list (ev E)) :
  run f w (xs ++ ys) = run f (run f w xs) ys.
Proof. unfold run. apply fold_left_app. Qed.

Lemma run_cons (w : env * S) (x : ev E) (xs : list (ev E)) :
  run f w (x :: xs) = run f (apply_ev f w x) xs.
Proof. reflexivity. Qed.

Lemma run_nil (w : env * S) : run f w [] = w.
Proof. reflexivity. Qed.
End RunLemmas.

Lemma strict_eq_eq (a b : jsval) : strict_eq a b = true -> a = b.
Proof.
  destruct a, b; simpl; try discriminate; intros H; try reflexivity.
  - apply Bool.eqb_prop in H. now subst.
  - apply Z.eqb_eq in H. now subst.
  - apply String.eqb_eq in H. now subst.
Qed.

Lemma jsval_eqb_sound : forall a b, jsval_eqb a b = true -> a = b.
Proof.
  fix IH 1. intros a b.
  destruct a as [| |x|x|x|xs|xs], b as [| |y|y|y|ys|ys]; simpl;
    try discriminate; intros H; try reflexivity.
  - apply Bool.eqb_prop in H. now subst.
  - apply Z.eqb_eq in H. now subst.
  - apply String.eqb_eq in H. now subst.
  - f_equal. revert ys H. induction xs as [|x xs IHxs]; intros [|y ys] H;
      try discriminate; [reflexivity|].
    apply andb_prop in H as [H1 H2]. f_equal; [now apply IH | now apply IHxs].
  - f_equal. revert ys H. induction xs as [|[k x] xs IHxs]; intros [|[k' y] ys] H;
      try discriminate; [reflexivity|].
    apply andb_prop in H as [H H2]. apply andb_prop in H as [H0 H1].
    apply String.eqb_eq in H0. subst. f_equal; [f_equal; now apply IH | now apply IHxs].
Qed.

Lemma jsval_eqb_refl : forall a, jsval_eqb a a = true.
Proof.
  fix IH 1. intros a. destruct a as [| |x|x|x|xs|xs]; simpl; try reflexivity.
  - apply Bool.eqb_reflx.
  - apply Z.eqb_refl.
  - apply String.eqb_refl.
  - induction xs as [|x xs IHxs]; [reflexivity|]. rewrite IH. exact IHxs.
  - induction xs as [|[k x] xs IHxs]; [reflexivity|].
    rewrite String.eqb_refl, IH. exact IHxs.
Qed.

(** Case analysis on the status tests of [apiCall]. *)
Ltac split_status :=
  repeat match goal with
  | |- context [(?a =? ?b)%Z] => destruct (a =? b)%Z
  | |- context [(?a <=? ?b)%Z] => destruct (a <=? b)%Z
  end; simpl.

(** ** Claims *)

(** C1 (corrected): a segment whose [edited_text] is present but empty
    is displayed with its original text, not with [edited_text]. *)
Lemma C1_counterexample :
  let s := mkSegment (JStr "seg-1") (JStr "customer") (JStr "original")
             (JStr "") (JBool true) JUndef in
  edited_text s <> JUndef /\ edited_text s <> JNull /\
  segment_body JNull (JStr "") s <> Paragraph (edited_text s).
Proof. simpl. split; [|split]; discriminate. Qed.

(** C1 (amended): when a segment is not in Editing, the displayed text
    is [edited_text] when it is a non-empty string and [text] when
    [edited_text] is absent, null or the empty string; the displayed
    value is always exactly one of the two fields. *)
Theorem C1_display_text (editing buffer : jsval) (s : segment)
    (Hview : strict_eq editing (seg_id s) = false) :
  (forall x, edited_text s = JStr x -> x <> "" ->
     segment_body editing buffer s = Paragraph (JStr x)) /\
  ((edited_text s = JUndef \/ edited_text s = JNull \/ edited_text s = JStr "") ->
     segment_body editing buffer s = Paragraph (text s)) /\
  (exists v, segment_body editing buffer s = Paragraph v /\
     (v = edited_text s \/ v = text s)).
Proof.
  unfold segment_body, js_or. rewrite Hview.
  split; [|split].
  - intros x Hx Hne. rewrite Hx. simpl.
    destruct (String.eqb_spec x ""); [contradiction|reflexivity].
  - intros [H|[H|H]]; rewrite H; reflexivity.
  - destruct (truthy (edited_text s)); eexists; split; eauto.
Qed.

Lemma C1_display_text_witness :
  strict_eq JNull (JStr "seg-1") = false /\
  segment_body JNull (JStr "")
    (mkSegment (JStr "seg-1") (JStr "customer") (JStr "original")
       (JStr "rettet") (JBool true) JUndef) = Paragraph (JStr "rettet").
Proof.
  split; [reflexivity|].
  apply (C1_display_text JNull (JStr "")
           (mkSegment (JStr "seg-1") (JStr "customer") (JStr "original")
              (JStr "rettet") (JBool true) JUndef) eq_refl); [reflexivity|discriminate].
Defined.

(** C8: a segment whose [edited_text] is the empty string is shown with
    its original [text] ([edited_text || text] tests truthiness), and
    starting an edit on it fills the edit buffer with [text]. *)
Theorem C8_empty_override_ignored (user : jsval) (e : env) (r : reader) (s : segment)
    (Hempty : edited_text s = JStr "") :
  (is_editing r s = false ->
     segment_body (editingSegment r) (editText r) s = Paragraph (text s)) /\
  (forall evs, react user r (StartEdit s) = Some evs ->
     is_editing (run_reader (e, r) evs).2 s = strict_eq (seg_id s) (seg_id s) /\
     editText (run_reader (e, r) evs).2 = text s).
Proof.
  split.
  - unfold is_editing, segment_body, js_or. intros H. rewrite H, Hempty. reflexivity.
  - intros evs Hr. unfold react in Hr.
    destruct (_ && negb (is_editing r s)); [|discriminate].
    injection Hr as <-. unfold js_or. rewrite Hempty. simpl. split; reflexivity.
Qed.

Lemma C8_empty_override_ignored_witness :
  edited_text seg3 = JStr "" /\
  segment_body JNull (JStr "") seg3 = Paragraph (JStr "Godt udvalg") /\
  editText (run_reader (env0, reader7)
     [Upd (SetEditing (JStr "seg-3")); Upd (SetEditText (JStr "Godt udvalg"))]).2
  = JStr "Godt udvalg".
Proof.
  split; [reflexivity|]. split.
  - apply (C8_empty_override_ignored (user_with_level "Premium") env0 reader7 seg3
             eq_refl); reflexivity.
  - destruct (C8_empty_override_ignored (user_with_level "Premium") env0 reader7 seg3
                eq_refl) as [_ Hstart].
    exact (proj2 (Hstart _ (eq_refl : react (user_with_level "Premium") reader7
                    (StartEdit seg3) = Some [Upd (SetEditing (JStr "seg-3"));
                                             Upd (SetEditText (JStr "Godt udvalg"))]))).
Defined.

(** C4: every call through [apiCall] that receives a 401 sends its
    request, then clears the three stored session keys and requests a
    page reload, with no other step in between; other stored keys are
    kept; after the reload [App] mounts on the landing (logged-out)
    view.  The call itself resolves with [undefined]. *)
Theorem C4_401_clears_session (req : request) (body : option jsval) (e : env) :
  apiCall req (Http 401 body) = ([GSend req; GClearAuth; GReload], Resolved JUndef) /\
  let e' := fold_left apply_gev (apiCall req (Http 401 body)).1 e in
  storage e' !! "access_token" = None /\
  storage e' !! "user_email" = None /\
  storage e' !! "access_level" = None /\
  (forall k, k <> "access_token" -> k <> "user_email" -> k <> "access_level" ->
     storage e' !! k = storage e !! k) /\
  reload_requested e' = true /\
  sent e' = (sent e ++ [req])%list /\
  mount_view (storage e') = LandingView.
Proof.
  split; [reflexivity|]. simpl. unfold clearStoredAuth.
  repeat split.
  - rewrite lookup_delete_ne by discriminate.
    rewrite lookup_delete_ne by discriminate. apply lookup_delete_eq.
  - rewrite lookup_delete_ne by discriminate. rewrite lookup_delete_eq. reflexivity.
  - apply lookup_delete_eq.
  - intros k H1 H2 H3.
    rewrite !lookup_delete_ne by congruence. reflexivity.
  - unfold mount_view.
    rewrite lookup_delete_ne by discriminate.
    rewrite lookup_delete_ne by discriminate. rewrite lookup_delete_eq. reflexivity.
Qed.

(** C9 (corrected): a 401 answer to [GET interview/{id}] is not a
    rejection of [apiCall]: it resolves with [undefined], so the shown
    transcript becomes [undefined] and the selection switches. *)
Lemma C9_counterexample :
  let r' := (run_reader (env0, reader7)
               (fetchFullTranscript (JStr "int-8") (Http 401 None))).2 in
  fullTranscript r' <> fullTranscript reader7 /\
  selectedInterview r' <> selectedInterview reader7.
Proof. simpl. split; discriminate. Qed.

(** C9 (amended): when [GET interview/{id}] rejects (network failure,
    non-2xx status other than 401, unreadable body) the shown transcript
    and the selection are unchanged; on success the transcript is set,
    then the selection; on 401 both are overwritten (transcript
    [undefined], selection [id]) while the session is cleared and a
    reload requested. *)
Theorem C9_select_atomic (e : env) (r : reader) (id : jsval) (resp : http) :
  let w := run_reader (e, r) (fetchFullTranscript id resp) in
  ((apiCall (GetInterview id) resp).2 = Thrown ->
     fullTranscript w.2 = fullTranscript r /\
     selectedInterview w.2 = selectedInterview r /\
     loadingTranscript w.2 = false) /\
  (forall st d, (200 <= st <= 299)%Z -> resp = Http st (Some d) ->
     fetchFullTranscript id resp =
       [Upd (SetLoadingT true); Eff (GSend (GetInterview id));
        Upd (SetFull d); Upd (SetSelected id); Upd (SetLoadingT false)] /\
     fullTranscript w.2 = d /\ selectedInterview w.2 = id) /\
  (forall b, resp = Http 401 b ->
     fullTranscript w.2 = JUndef /\ selectedInterview w.2 = id /\
     storage w.1 = clearStoredAuth (storage e) /\ reload_requested w.1 = true).
Proof.
  simpl. split; [|split].
  - unfold fetchFullTranscript, apiCall.
    destruct resp as [st [b|]|]; simpl; split_status; try discriminate;
      intros _; repeat split.
  - intros st d Hst ->.
    assert (H1 : (st =? 401)%Z = false) by (apply Z.eqb_neq; lia).
    assert (H2 : ((200 <=? st) && (st <=? 299))%Z = true)
      by (apply andb_true_intro; split; apply Z.leb_le; lia).
    unfold fetchFullTranscript, apiCall. rewrite H1, H2. simpl. repeat split.
  - intros b ->. simpl. repeat split.
Qed.

Lemma C9_select_atomic_witness :
  (apiCall (GetInterview (JStr "int-8")) NetworkError).2 = Thrown /\
  fullTranscript (run_reader (env0, reader7)
                    (fetchFullTranscript (JStr "int-8") NetworkError)).2 = detail7.
Proof.
  split; [reflexivity|].
  apply (proj1 (C9_select_atomic env0 reader7 (JStr "int-8") NetworkError) eq_refl).
Defined.

(** C7: when the edit or tag POST fails with a network error or a
    non-2xx status other than 401, the failure is only logged: no
    further request is sent (no retry, no re-fetch), the session and
    reload state are unchanged, no error is shown and the widget state is
    left as it was when the request was issued ([saveTags] has closed
    the tag panel by then, before the answer arrives). *)
Theorem C7_failed_save_silent (e : env) (r : reader)
    (sel segId txt se th no key : jsval) (r_post r_get : http)
    (Hfail : r_post = NetworkError \/
             exists st b, r_post = Http st b /\ st <> 401%Z /\ ~ (200 <= st <= 299)%Z) :
  run_reader (e, r) (handleEditSegment true sel segId txt r_post r_get)
  = (mkEnv (storage e) (reload_requested e)
       (sent e ++ [PostEdit sel segId txt])%list (S (S (errors_logged e))), r) /\
  run_reader (e, r) (saveTags key (handleTagSegment true sel segId se th no r_post r_get))
  = (mkEnv (storage e) (reload_requested e)
       (sent e ++ [PostTag sel segId se th no])%list (S (S (errors_logged e))),
     apply_rupd r (SetShowTagging key false)).
Proof.
  assert (Hth : forall q, apiCall q r_post = ([GSend q; GLog], Thrown)).
  { intros q. destruct Hfail as [-> | (st & b & -> & H401 & Hr)]; [reflexivity|].
    unfold apiCall. apply Z.eqb_neq in H401. rewrite H401.
    destruct ((200 <=? st) && (st <=? 299))%Z eqn:E; [|reflexivity].
    exfalso. apply Hr. apply andb_prop in E as [E1 E2].
    apply Z.leb_le in E1, E2. lia. }
  unfold saveTags, handleEditSegment, handleTagSegment. rewrite !Hth.
  split; reflexivity.
Qed.

Lemma C7_failed_save_silent_witness :
  run_reader (env0, reader7)
    (handleEditSegment true (JStr "int-7") (JStr "seg-3") (JStr "x") (Http 500 None)
       (ok detail7))
  = (mkEnv (storage env0) false [PostEdit (JStr "int-7") (JStr "seg-3") (JStr "x")] 2,
     reader7).
Proof.
  refine (proj1 (C7_failed_save_silent env0 reader7 (JStr "int-7") (JStr "seg-3")
     (JStr "x") JNull JNull JNull JNull (Http 500 None) (ok detail7) _)).
  right. exists 500%Z, None. split; [reflexivity|]. split; [discriminate|lia].
Defined.

(** C5: after a successful edit or tag POST exactly one more request is
    sent, [GET interview/{selectedInterview}], and the transcript shown
    afterwards is the value that request resolves with (the previous
    one when it rejects); nothing is merged on the client.  An edit
    save also leaves Editing. *)
Theorem C5_save_refetch (e : env) (r : reader) (user segId txt se th no key : jsval)
    (st : Z) (v : jsval) (r_get : http)
    (Hed : isEditable user = true) (Hst : (200 <= st <= 299)%Z) :
  let sel := selectedInterview r in
  let after_get := match (apiCall (GetInterview sel) r_get).2 with
                   | Resolved d => d | Thrown => fullTranscript r end in
  (let w := run_reader (e, r)
              (handleEditSegment (isEditable user) sel segId txt (Http st (Some v)) r_get) in
   sent w.1 = (sent e ++ [PostEdit sel segId txt; GetInterview sel])%list /\
   fullTranscript w.2 = after_get /\ editingSegment w.2 = JNull) /\
  (let w := run_reader (e, r)
              (saveTags key (handleTagSegment (isEditable user) sel segId se th no
                               (Http st (Some v)) r_get)) in
   sent w.1 = (sent e ++ [PostTag sel segId se th no; GetInterview sel])%list /\
   fullTranscript w.2 = after_get).
Proof.
  assert (H1 : (st =? 401)%Z = false) by (apply Z.eqb_neq; lia).
  assert (H2 : ((200 <=? st) && (st <=? 299))%Z = true)
    by (apply andb_true_intro; split; apply Z.leb_le; lia).
  assert (Hpost : forall q, apiCall q (Http st (Some v)) = ([GSend q], Resolved v))
    by (intros q; unfold apiCall; rewrite H1, H2; reflexivity).
  unfold handleEditSegment, handleTagSegment, saveTags.
  rewrite Hed, !Hpost. unfold fetchFullTranscript, apiCall.
  destruct r_get as [st' [b|]|]; simpl; split_status; rewrite <- ?app_assoc;
    repeat split.
Qed.

Lemma C5_save_refetch_witness :
  isEditable (user_with_level "Premium") = true /\
  fullTranscript (run_reader (env0, reader7)
     (handleEditSegment (isEditable (user_with_level "Premium")) (JStr "int-7")
        (JStr "seg-3") (JStr "Bedre end forventet") (Http 200 (Some (JObj [])))
        (ok detail8))).2 = detail8.
Proof.
  split; [reflexivity|].
  exact (proj1 (proj2 (proj1 (C5_save_refetch env0 reader7 (user_with_level "Premium")
     (JStr "seg-3") (JStr "Bedre end forventet") JNull JNull JNull JNull 200 (JObj [])
     (ok detail8) eq_refl ltac:(lia))))).
Defined.




Lemma filter_strict_eq_nodup (x : jsval) (l : list segment) :
  NoDup (map seg_id l) ->
  length (List.filter (fun s => strict_eq x (seg_id s)) l) <= 1.
Proof.
  induction l as [|s l IH]; simpl; [lia|].
  intros Hnd. apply NoDup_cons in Hnd as [Hnotin Hnd].
  destruct (strict_eq x (seg_id s)) eqn:Hx.
  - apply strict_eq_eq in Hx. subst x.
    assert (Hnil : List.filter (fun t => strict_eq (seg_id s) (seg_id t)) l = []).
    { rewrite list_elem_of_In in Hnotin. clear IH Hnd.
      induction l as [|t l IHl]; [reflexivity|]. simpl.
      destruct (strict_eq (seg_id s) (seg_id t)) eqn:Ht'.
      - apply strict_eq_eq in Ht'. exfalso. apply Hnotin. rewrite Ht'. left. reflexivity.
      - apply IHl. intros Hin. apply Hnotin. right. exact Hin. }
    rewrite Hnil. simpl. lia.
  - apply IH, Hnd.
Qed.

(** C2: the edit slot is the single value [editingSegment] of the
    widget.  (i) Among mounted segments with distinct ids, at most one
    is in Editing.  (ii) Starting an edit on B makes B the editing
    segment and takes every segment with another id (in particular one
    that was editing) out of Editing, for any primitive id of B
    (compared with [===]).  (iii) The tag panel flag is kept per segment: toggling B's panel open keeps an open panel of A open,
    so both are open at once. *)
Theorem C2_single_edit_slot :
  (forall r : reader, NoDup (map seg_id (rendered_segments r)) ->
     length (List.filter (is_editing r) (rendered_segments r)) <= 1) /\
  (forall user e r A B evs,
     react user r (StartEdit B) = Some evs ->
     strict_eq (seg_id B) (seg_id B) = true -> seg_id A <> seg_id B ->
     let r' := (run_reader (e, r) evs).2 in
     is_editing r' B = true /\ is_editing r' A = false) /\
  (forall user e r A B evs,
     react user r (ToggleTag B) = Some evs ->
     is_tag_open r A = true -> is_tag_open r B = false -> seg_id A <> seg_id B ->
     let r' := (run_reader (e, r) evs).2 in
     is_tag_open r' A = true /\ is_tag_open r' B = true).
Proof.
  split; [|split].
  - intros r Hnd. apply filter_strict_eq_nodup, Hnd.
  - intros user e r A B evs Hr HB HA. unfold react in Hr.
    destruct (_ && negb (is_editing r B)); [|discriminate].
    injection Hr as <-. unfold is_editing. simpl. rewrite HB.
    split; [reflexivity|].
    destruct (strict_eq (seg_id B) (seg_id A)) eqn:Hab; [|reflexivity].
    apply strict_eq_eq in Hab. symmetry in Hab. contradiction.
  - intros user e r A B evs Hr HA HB Hne. unfold react in Hr.
    destruct (_ && negb (is_editing r B)); [|discriminate].
    injection Hr as <-. rewrite HB. unfold is_tag_open in *. simpl.
    rewrite jsval_eqb_refl. simpl. split; [|reflexivity].
    apply orb_true_intro. right.
    apply existsb_exists in HA as [k [Hk Hak]].
    apply jsval_eqb_sound in Hak. subst k.
    apply existsb_exists. exists (seg_id A). split; [|apply jsval_eqb_refl].
    apply filter_In. split; [exact Hk|].
    destruct (jsval_eqb (seg_id A) (seg_id B)) eqn:Hab; [|reflexivity].
    apply jsval_eqb_sound in Hab. contradiction.
Qed.

Lemma C2_single_edit_slot_witness :
  length (List.filter (is_editing (mkReader (JStr "int-7") detail7 false (JStr "seg-3")
            (JStr "x") [])) (rendered_segments reader7)) <= 1 /\
  is_editing (run_reader (env0, mkReader (JStr "int-7") detail7 false (JStr "seg-3") (JStr "x") [])
     [Upd (SetEditing (JStr "seg-4"));
      Upd (SetEditText (JStr "Hvad synes du om priserne?"))]).2 seg3 = false /\
  is_tag_open (run_reader (env0, reader7_a_open)
     [Upd (SetShowTagging (JStr "seg-4") true)]).2 seg3 = true.
Proof.
  destruct C2_single_edit_slot as [P1 [P2 P3]]. split; [|split].
  - apply (P1 (mkReader (JStr "int-7") detail7 false (JStr "seg-3") (JStr "x") [])).
    vm_compute. apply NoDup_cons_2; [|apply NoDup_cons_2; [|apply NoDup_nil_2]];
      rewrite list_elem_of_In; simpl; intuition discriminate.
  - exact (proj2 (P2 (user_with_level "Premium") env0
       (mkReader (JStr "int-7") detail7 false (JStr "seg-3") (JStr "x") [])
       seg3 seg4 _ eq_refl eq_refl ltac:(discriminate))).
  - exact (proj1 (P3 (user_with_level "Premium") env0 reader7_a_open seg3 seg4
       [Upd (SetShowTagging (JStr "seg-4") true)] eq_refl eq_refl eq_refl ltac:(discriminate))).
Defined.

(** C3 (corrected): the access check is a substring test, so a level
    that is neither Premium nor Admin, such as "Non-Premium", gets the
    editing controls: the user can enter Editing and the save sends the
    edit POST. *)
Lemma C3_counterexample :
  let u := user_with_level "Non-Premium" in
  let w2 := run_actions u (env0, init_reader)
              [ClickInterview (JStr "int-7") (ok detail7); StartEdit seg3] in
  let w3 := run_actions u (env0, init_reader)
              [ClickInterview (JStr "int-7") (ok detail7); StartEdit seg3;
               SaveEdit seg3 (ok (JObj [])) (ok detail7)] in
  "Non-Premium" <> "Premium" /\ "Non-Premium" <> "Admin" /\
  is_editing w2.2 seg3 = true /\
  In (PostEdit (JStr "int-7") (JStr "seg-3") (JStr "Godt udvalg")) (sent w3.1).
Proof.
  split; [discriminate|]. split; [discriminate|]. split.
  - vm_compute. reflexivity.
  - vm_compute. right. left. reflexivity.
Qed.

Lemma fetchFullTranscript_inv (e0 : env) (w : env * reader) (id : jsval) (resp : http) :
  no_edit_inv e0 w -> no_edit_inv e0 (run_reader w (fetchFullTranscript id resp)).
Proof.
  destruct w as [e r]. intros [Hed [Hto [extra [Hs Hx]]]]. simpl in Hed, Hto, Hs.
  assert (Hx' : only_refetches (extra ++ [GetInterview id])%list).
  { apply Forall_app. split; [exact Hx|]. constructor; [eexists; reflexivity|constructor]. }
  unfold fetchFullTranscript, apiCall.
  destruct resp as [st [b|]|]; simpl; split_status;
    (split; [exact Hed|]); (split; [reflexivity|]);
    exists (extra ++ [GetInterview id])%list; (split; [|exact Hx']);
    rewrite Hs, app_assoc; reflexivity.
Qed.

Lemma step_inv (user : jsval) (e0 : env) (w : env * reader) (a : action) :
  isEditable user = false -> no_edit_inv e0 w -> no_edit_inv e0 (step user w a).
Proof.
  intros Hpriv Hinv. unfold step, react. rewrite Hpriv.
  destruct a as [id resp|s|v|s r_post r_get|s|s|s|s se th no r_post r_get];
    simpl; rewrite ?andb_false_r; simpl; try exact Hinv.
  - apply fetchFullTranscript_inv, Hinv.
  - destruct (existsb _ _); [|exact Hinv].
    destruct w as [e r]. destruct Hinv as [H1 [H2 H3]]. split; [exact H1|split; [exact H2|exact H3]].
Qed.

(** C3 (amended): for every user whose access level passes neither
    [includes('Premium')] nor [includes('Admin')] ([isEditable] false),
    whatever the user clicks, [editingSegment] stays null, no tag panel
    is open, and the only requests the widget sends are
    [GET interview/{id}]; so no segment with a non-null id is ever in
    Editing or Tagging, and no edit or tag POST is issued. *)
Theorem C3_no_edit_without_privilege (user : jsval) (e : env) (acts : list action)
    (Hpriv : isEditable user = false) :
  let w := run_actions user (e, init_reader) acts in
  editingSegment w.2 = JNull /\ tag_open w.2 = [] /\
  (exists extra, sent w.1 = (sent e ++ extra)%list /\ only_refetches extra) /\
  (forall s, In s (rendered_segments w.2) -> seg_id s <> JNull ->
     is_editing w.2 s = false /\ is_tag_open w.2 s = false).
Proof.
  assert (Hinv : no_edit_inv e (run_actions user (e, init_reader) acts)).
  { unfold run_actions.
    assert (H0 : no_edit_inv e (e, init_reader)).
    { split; [reflexivity|]. split; [reflexivity|]. exists []. split.
      - rewrite app_nil_r. reflexivity.
      - constructor. }
    revert H0. generalize (e, init_reader) as w.
    induction acts as [|a acts IH]; intros w Hw; simpl; [exact Hw|].
    apply IH, step_inv; assumption. }
  destruct Hinv as [Hed [Hto Hsent]]. simpl.
  split; [exact Hed|]. split; [exact Hto|]. split; [exact Hsent|].
  intros s _ Hid. unfold is_editing, is_tag_open. rewrite Hed, Hto. split; [|reflexivity].
  destruct (seg_id s); try reflexivity. contradiction.
Qed.

Lemma C3_no_edit_without_privilege_witness :
  isEditable (user_with_level "Standard") = false /\
  editingSegment (run_actions (user_with_level "Standard") (env0, init_reader)
     [ClickInterview (JStr "int-7") (ok detail7); StartEdit seg3;
      SaveEdit seg3 (ok (JObj [])) (ok detail7); ToggleTag seg4]).2 = JNull.
Proof.
  split; [reflexivity|].
  exact (proj1 (C3_no_edit_without_privilege (user_with_level "Standard") env0
     [ClickInterview (JStr "int-7") (ok detail7); StartEdit seg3;
      SaveEdit seg3 (ok (JObj [])) (ok detail7); ToggleTag seg4] eq_refl)).
Defined.

Lemma upds_app {E} (xs ys : list (ev E)) : upds (xs ++ ys) = (upds xs ++ upds ys)%list.
Proof. induction xs as [|[g|u] xs IH]; simpl; rewrite ?IH; reflexivity. Qed.

Lemma sends_app {E} (xs ys : list (ev E)) : sends (xs ++ ys) = (sends xs ++ sends ys)%list.
Proof. induction xs as [|[[q| | |]|u] xs IH]; simpl; rewrite ?IH; reflexivity. Qed.

Lemma upds_effs {E} (gs : list gev) : upds (effs (E:=E) gs) = [].
Proof. induction gs; simpl; auto. Qed.

Lemma run_state {S E} (f : S -> E -> S) (w : env * S) (xs : list (ev E)) :
  (run f w xs).2 = fold_left f (upds xs) w.2.
Proof.
  revert w. induction xs as [|[g|u] xs IH]; intros w; simpl; [reflexivity| |];
    unfold run in *; simpl; rewrite IH; reflexivity.
Qed.

Lemma run_sent {S E} (f : S -> E -> S) (w : env * S) (xs : list (ev E)) :
  sent (run f w xs).1 = (sent w.1 ++ sends xs)%list.
Proof.
  revert w. induction xs as [|[g|u] xs IH]; intros w; simpl.
  - rewrite app_nil_r. reflexivity.
  - unfold run in *. simpl. rewrite IH. destruct g; simpl; rewrite <- ?app_assoc; reflexivity.
  - unfold run in *. simpl. rewrite IH. reflexivity.
Qed.

Lemma apiCall_later_sends {E} (q : request) (resp : http) :
  sends (effs (E:=E) (tail (apiCall q resp).1)) = [].
Proof. destruct resp as [st [b|]|]; unfold apiCall; simpl; split_status; reflexivity. Qed.

Lemma settle_settled (s : bool) (now : jsval) (acc : list (nat * jsval)) (xs : list (nat * http)) :
  upds (settle s now true acc xs) = [] /\ sends (settle s now true acc xs) = [].
Proof.
  revert acc. induction xs as [|[i resp] xs IH]; intros acc; simpl; [split; reflexivity|].
  pose proof (apiCall_later_sends (E:=aupd) (dash_req i) resp) as Hs.
  destruct (apiCall (dash_req i) resp) as [gs o]. simpl in Hs.
  rewrite upds_app, sends_app, upds_effs, Hs. apply IH.
Qed.

Lemma fulfilled_cont_no_send (s : bool) (now : jsval) (vs : nat -> jsval) :
  sends (fulfilled_cont s now vs) = [].
Proof.
  unfold fulfilled_cont, finally_evs, catch_evs.
  destruct (get_prop (vs 1%nat) _); [destruct (get_prop (vs 2%nat) _);
    [destruct (get_prop (vs 3%nat) _)|]|]; destruct s; reflexivity.
Qed.

Lemma rejected_cont_no_send (s : bool) : sends (rejected_cont s) = [].
Proof. unfold rejected_cont, finally_evs, catch_evs. destruct s; reflexivity. Qed.

Lemma settle_upds (s : bool) (now : jsval) (acc : list (nat * jsval)) (xs : list (nat * http)) :
  upds (settle s now false acc xs) =
  match promise_all acc (outcomes xs) with
  | BPending => []
  | BFulfilled acc' => upds (fulfilled_cont s now (result_at acc'))
  | BRejected => upds (rejected_cont s)
  end /\ sends (settle s now false acc xs) = [].
Proof.
  revert acc. induction xs as [|[i resp] xs IH]; intros acc; [split; reflexivity|].
  cbn -[fulfilled_cont rejected_cont all_in].
  pose proof (apiCall_later_sends (E:=aupd) (dash_req i) resp) as Hs.
  destruct (apiCall (dash_req i) resp) as [gs o]. cbn -[fulfilled_cont rejected_cont all_in] in Hs |- *.
  rewrite upds_app, sends_app, upds_effs, Hs.
  destruct o as [v|].
  - destruct (all_in ((i, v) :: acc)).
    + destruct (settle_settled s now ((i, v) :: acc) xs) as [U S'].
      rewrite upds_app, sends_app, U, S', !app_nil_r, fulfilled_cont_no_send.
      split; reflexivity.
    + apply IH.
  - destruct (settle_settled s now acc xs) as [U S'].
    rewrite upds_app, sends_app, U, S', !app_nil_r, rejected_cont_no_send.
    split; reflexivity.
Qed.

Lemma promise_all_fail_fast (acc : list (nat * jsval)) (xs1 : list (nat * http))
    (i : nat) (resp : http) :
  promise_all acc (outcomes xs1) = BPending ->
  (apiCall (dash_req i) resp).2 = Thrown ->
  promise_all acc (outcomes (xs1 ++ [(i, resp)])) = BRejected.
Proof.
  revert acc. induction xs1 as [|[j r] xs1 IH]; intros acc Hp Ht; simpl in *.
  - rewrite Ht. reflexivity.
  - destruct (apiCall (dash_req j) r).2 as [v|]; [|discriminate].
    destruct (all_in ((j, v) :: acc)); [discriminate|]. apply IH; assumption.
Qed.

(** C6 (corrected): [Promise.all] does not wait for all four requests
    to settle: when the first settlement is a rejection, the dashboard
    already shows the error and has left loading while the other three
    requests are still outstanding. *)
Lemma C6_counterexample :
  let xs := [(1%nat, NetworkError)] in
  let w := run_app (env0, app0) (fetchAllData true (JStr "12:00") xs) in
  length xs = 1%nat /\ promise_all [] (outcomes xs) = BRejected /\
  error w.2 = fetch_error_msg /\ isLoading w.2 = false /\
  sent w.1 = map dash_req [0; 1; 2; 3]%nat.
Proof. vm_compute. repeat split. Qed.

(** C6 (amended): [fetchAllData] sends the four requests (overview,
    themes, ratings, interviews) before any of them is answered, and
    no other request.  The batch fails at the first rejection, without
    waiting for the other requests: none of the four data fields is
    written, the single dashboard error is set and loading ends.  When
    all four fulfil with objects, the four fields are written from the
    results and the error stays cleared.  A batch that has not failed
    fails as soon as one more request rejects.  [handleRetry] runs the
    full batch again with the loading indicator. *)
Theorem C6_fetch_batch (s : bool) (now : jsval) (e : env) (a : app) (xs : list (nat * http)) :
  let w := run_app (e, a) (fetchAllData s now xs) in
  sent w.1 = (sent e ++ map dash_req [0; 1; 2; 3]%nat)%list /\
  (promise_all [] (outcomes xs) = BRejected ->
     overview w.2 = overview a /\ themes w.2 = themes a /\
     ratings w.2 = ratings a /\ interviews w.2 = interviews a /\
     error w.2 = fetch_error_msg /\ isLoading w.2 = (if s then false else isLoading a)) /\
  (forall acc fs1 fs2 fs3,
     promise_all [] (outcomes xs) = BFulfilled acc ->
     result_at acc 1 = JObj fs1 -> result_at acc 2 = JObj fs2 -> result_at acc 3 = JObj fs3 ->
     overview w.2 = result_at acc 0 /\
     themes w.2 = js_or (assoc_get "themes" fs1) (JArr []) /\
     ratings w.2 = js_or (assoc_get "ratings" fs2) (JObj []) /\
     interviews w.2 = js_or (assoc_get "interviews" fs3) (JArr []) /\
     error w.2 = JNull /\ isLoading w.2 = (if s then false else isLoading a)) /\
  (forall xs1 i resp,
     promise_all [] (outcomes xs1) = BPending ->
     (apiCall (dash_req i) resp).2 = Thrown ->
     promise_all [] (outcomes (xs1 ++ [(i, resp)])) = BRejected) /\
  handleRetry now xs = fetchAllData true now xs.
Proof.
  destruct (settle_upds s now [] xs) as [U S'].
  simpl. split; [|split; [|split; [|split]]].
  - unfold run_app. rewrite run_sent. simpl. unfold fetchAllData.
    rewrite !sends_app, S'. destruct s; reflexivity.
  - intros Hrej. unfold run_app. rewrite run_state. unfold fetchAllData.
    rewrite !upds_app, U, Hrej. unfold rejected_cont, catch_evs, finally_evs.
    destruct s; simpl; repeat split.
  - intros acc fs1 fs2 fs3 Hful H1 H2 H3. unfold run_app. rewrite run_state.
    unfold fetchAllData. rewrite !upds_app, U, Hful.
    unfold fulfilled_cont. rewrite H1, H2, H3. unfold finally_evs.
    destruct s; simpl; repeat split.
  - intros xs1 i resp. apply promise_all_fail_fast.
  - reflexivity.
Qed.

Lemma C6_fetch_batch_witness :
  promise_all [] (outcomes [(2%nat, Http 500 None)]) = BRejected /\
  overview (run_app (env0, app0) (fetchAllData true (JStr "12:00") [(2%nat, Http 500 None)])).2
  = overview app0.
Proof.
  split; [reflexivity|].
  exact (proj1 (proj1 (proj2 (C6_fetch_batch true (JStr "12:00") env0 app0
                                [(2%nat, Http 500 None)])) eq_refl)).
Defined.


(** ** Further properties of the code *)

(** *** Helper lemmas *)

Lemma range_true (st : Z) : (200 <= st <= 299)%Z -> ((200 <=? st) && (st <=? 299))%Z = true.
Proof. intros H. apply andb_true_intro. split; apply Z.leb_le; lia. Qed.

Lemma range_of (st : Z) : ((200 <=? st) && (st <=? 299))%Z = true -> (200 <= st <= 299)%Z.
Proof. intros H. apply andb_prop in H as [H1 H2]. apply Z.leb_le in H1, H2. lia. Qed.

Lemma get_prop_some (d : jsval) (k : string) :
  d <> JNull -> d <> JUndef -> get_prop d k = Some (opt_prop d k).
Proof. unfold opt_prop. destruct d; simpl; congruence. Qed.


Lemma includes_empty (s : string) : includes s "" = true.
Proof. destruct s; reflexivity. Qed.

Lemma prefixb_self (p t : string) : prefixb p (p +:+ t) = true.
Proof. induction p as [|a p IH]; simpl; [reflexivity|]. rewrite Ascii.eqb_refl. exact IH. Qed.

Lemma includes_app_r (u v p : string) : includes v p = true -> includes (u +:+ v) p = true.
Proof.
  induction u as [|c u IH]; simpl; intros H; [exact H|].
  rewrite IH by exact H. apply orb_true_r.
Qed.

Lemma includes_self_app (p t : string) : includes (p +:+ t) p = true.
Proof. destruct p as [|a p]; [apply includes_empty|]. simpl. rewrite Ascii.eqb_refl, prefixb_self. reflexivity. Qed.

Lemma join_includes (xs : list jsval) (p : string) :
  In (JStr p) xs -> includes (js_to_string (JArr xs)) p = true.
Proof.
  induction xs as [|x xs IH]; intros Hin; [destruct Hin|].
  change (js_to_string (JArr (x :: xs))) with
    ((match x with JUndef | JNull => "" | _ => js_to_string x end)
     +:+ match xs with [] => "" | _ :: _ => "," +:+ js_to_string (JArr xs) end).
  destruct Hin as [->|Hin].
  - apply includes_self_app.
  - destruct xs as [|y xs]; [destruct Hin|].
    apply includes_app_r. apply (includes_app_r ","). apply IH, Hin.
Qed.

Lemma existsb_eqb_In (p : string) (xs : list jsval) :
  existsb (jsval_eqb (JStr p)) xs = true -> In (JStr p) xs.
Proof.
  intros H. apply existsb_exists in H as [x [Hx Heq]].
  apply jsval_eqb_sound in Heq. subst x. exact Hx.
Qed.

(** Storage keys that are absent stay absent: no global effect writes
    the storage. *)
Lemma run_key_absent {S E} (f : S -> E -> S) (w : env * S) (xs : list (ev E)) (k : string) :
  storage w.1 !! k = None -> storage (run f w xs).1 !! k = None.
Proof.
  revert w. induction xs as [|[g|u] xs IH]; intros w H; [exact H| |]; apply IH; simpl; [|exact H].
  destruct g; simpl; try exact H.
  unfold clearStoredAuth. destruct (decide (k = "access_level")) as [->|H1];
    [apply lookup_delete_eq|rewrite lookup_delete_ne by congruence].
  destruct (decide (k = "user_email")) as [->|H2];
    [apply lookup_delete_eq|rewrite lookup_delete_ne by congruence].
  destruct (decide (k = "access_token")) as [->|H3];
    [apply lookup_delete_eq|rewrite lookup_delete_ne by congruence]. exact H.
Qed.

Lemma run_reload_kept {S E} (f : S -> E -> S) (w : env * S) (xs : list (ev E)) :
  reload_requested w.1 = true -> reload_requested (run f w xs).1 = true.
Proof.
  revert w. induction xs as [|[g|u] xs IH]; intros w H; [exact H| |]; apply IH; simpl; [|exact H].
  destruct g; simpl; auto.
Qed.

Lemma run_clear_auth {S E} (f : S -> E -> S) (w : env * S) (xs : list (ev E)) :
  In (Eff GClearAuth) xs ->
  storage (run f w xs).1 !! "access_token" = None /\
  storage (run f w xs).1 !! "user_email" = None /\
  storage (run f w xs).1 !! "access_level" = None.
Proof.
  revert w. induction xs as [|x xs IH]; intros w Hin; [destruct Hin|].
  rewrite run_cons. destruct Hin as [Hx|Hin]; [subst x|apply IH, Hin].
  simpl. unfold clearStoredAuth.
  split; [|split]; apply run_key_absent; simpl.
  - rewrite !lookup_delete_ne by discriminate. apply lookup_delete_eq.
  - rewrite lookup_delete_ne by discriminate. apply lookup_delete_eq.
  - apply lookup_delete_eq.
Qed.

Lemma run_reload {S E} (f : S -> E -> S) (w : env * S) (xs : list (ev E)) :
  In (Eff GReload) xs -> reload_requested (run f w xs).1 = true.
Proof.
  revert w. induction xs as [|x xs IH]; intros w Hin; [destruct Hin|].
  rewrite run_cons. destruct Hin as [Hx|Hin]; [subst x|apply IH, Hin].
  apply run_reload_kept. reflexivity.
Qed.

Lemma settle_401 (s : bool) (now : jsval) (xs : list (nat * http)) (i : nat) (b : option jsval) :
  In (i, Http 401 b) xs ->
  forall settled acc g, (g = GClearAuth \/ g = GReload) ->
  In (Eff g) (settle s now settled acc xs).
Proof.
  induction xs as [|[j r] xs IH]; intros Hin settled acc g Hg; [destruct Hin|].
  destruct Hin as [Heq|Hin].
  - injection Heq as -> ->. simpl. destruct Hg as [-> | ->]; [left|right; left]; reflexivity.
  - cbn -[fulfilled_cont rejected_cont all_in]. destruct (apiCall (dash_req j) r) as [gs o].
    apply in_or_app. right.
    destruct settled; [apply IH; assumption|].
    destruct o as [v|]; [destruct (all_in ((j, v) :: acc))|];
      try (apply in_or_app; right); apply IH; assumption.
Qed.

(** Loading flag through the continuations of the batch. *)
Lemma fulfilled_cont_loading (s : bool) (now : jsval) (vs : nat -> jsval) (a : app) :
  isLoading (fold_left apply_aupd (upds (fulfilled_cont s now vs)) a)
  = if s then false else isLoading a.
Proof.
  unfold fulfilled_cont, catch_evs, finally_evs.
  destruct (get_prop (vs 1%nat) _); [destruct (get_prop (vs 2%nat) _);
    [destruct (get_prop (vs 3%nat) _)|]|]; destruct s; reflexivity.
Qed.

Lemma rejected_cont_loading (s : bool) (a : app) :
  isLoading (fold_left apply_aupd (upds (rejected_cont s)) a) = if s then false else isLoading a.
Proof. unfold rejected_cont, catch_evs, finally_evs. destruct s; reflexivity. Qed.

Lemma set_open_closed (k : jsval) (l : list jsval) :
  existsb (jsval_eqb k) l = false ->
  List.filter (fun x => negb (jsval_eqb x k)) l = l.
Proof.
  induction l as [|x l IH]; simpl; intros H; [reflexivity|].
  apply orb_false_iff in H as [H1 H2].
  destruct (jsval_eqb x k) eqn:E.
  - apply jsval_eqb_sound in E. subst x. rewrite jsval_eqb_refl in H1. discriminate.
  - simpl. rewrite IH by exact H2. reflexivity.
Qed.

Lemma filter_idem {A} (p : A -> bool) (l : list A) :
  List.filter p (List.filter p l) = List.filter p l.
Proof.
  induction l as [|x l IH]; simpl; [reflexivity|].
  destruct (p x) eqn:E; simpl; [rewrite E, IH|rewrite IH]; reflexivity.
Qed.

(** *** The API client *)

(** X1: [apiCall] issues exactly one request, as its first effect; it
    clears the stored session or requests a reload only on a 401; it
    resolves only on a 401 (with [undefined]) or on a 2xx response whose
    body parses (with that body). *)
Theorem apiCall_contract (r : request) (resp : http) :
  let gs := (apiCall r resp).1 in
  gs = GSend r :: tail gs /\
  (forall q, ~ In (GSend q) (tail gs)) /\
  ((In GClearAuth gs \/ In GReload gs) <-> exists b, resp = Http 401 b) /\
  (forall v, (apiCall r resp).2 = Resolved v ->
     (exists b, resp = Http 401 b /\ v = JUndef) \/
     (exists st, (200 <= st <= 299)%Z /\ resp = Http st (Some v))).
Proof.
  unfold apiCall. destruct resp as [st body|].
  - destruct (Z.eqb_spec st 401) as [->|Hn].
    + simpl. split; [reflexivity|]. split; [intros q [H|[H|[]]]; discriminate|].
      split; [split; [intros _; exists body; reflexivity|intros _; left; right; left; reflexivity]|].
      intros v Hv. injection Hv as <-. left. exists body. split; reflexivity.
    + destruct ((200 <=? st) && (st <=? 299))%Z eqn:Hr; simpl.
      * destruct body as [v|]; simpl.
        -- split; [reflexivity|]. split; [intros q []|].
           split; [split; [intros [[H|[]]|[H|[]]]; discriminate|intros [b Hb]; injection Hb as Hb; contradiction]|].
           intros v' Hv. injection Hv as <-. right. exists st. split; [apply range_of, Hr|reflexivity].
        -- split; [reflexivity|]. split; [intros q [H|[]]; discriminate|].
           split; [split; [intros [[H|[H|[]]]|[H|[H|[]]]]; discriminate|intros [b Hb]; injection Hb as Hb; contradiction]|].
           intros v Hv. discriminate.
      * split; [reflexivity|]. split; [intros q [H|[]]; discriminate|].
        split; [split; [intros [[H|[H|[]]]|[H|[H|[]]]]; discriminate|intros [b Hb]; injection Hb as Hb; contradiction]|].
        intros v Hv. discriminate.
  - simpl. split; [reflexivity|]. split; [intros q [H|[]]; discriminate|].
    split; [split; [intros [[H|[H|[]]]|[H|[H|[]]]]; discriminate|intros [b Hb]; discriminate]|].
    intros v Hv. discriminate.
Qed.

(** *** The interview filter *)

(** X5: whatever [toLowerCase] does on non-empty strings, as long as it
    maps the empty string to itself: the empty query keeps every
    interview, in order, when each supermarket is a string or missing;
    when [interviews] is not an array, no interview is listed, whatever
    the query. *)
Theorem filteredInterviews_empty_query (toLowerCase : string -> string)
    (Hempty : toLowerCase "" = "") (interviews : jsval) :
  (forall l, interviews = JArr l ->
     Forall (fun iv => exists s, js_or (opt_prop iv "supermarket") (JStr "") = JStr s) l ->
     filteredInterviews toLowerCase interviews "" = Some l) /\
  ((forall l, interviews <> JArr l) -> forall f, filteredInterviews toLowerCase interviews f = Some []).
Proof.
  split.
  - intros l -> Hl. unfold filteredInterviews. induction Hl as [|iv l [s Hs] _ IH]; [reflexivity|].
    cbn [filter_opt]. rewrite IH. unfold matches_filter. rewrite Hs. simpl.
    rewrite Hempty, includes_empty. reflexivity.
  - intros Hn f. unfold filteredInterviews.
    destruct interviews as [| | | | |l|]; try reflexivity. exfalso. exact (Hn l eq_refl).
Qed.

Lemma filteredInterviews_empty_query_witness :
  ascii_to_lower "" = "" /\
  filteredInterviews ascii_to_lower (JArr [JObj [("supermarket", JStr "Netto")]; JObj []]) ""
  = Some [JObj [("supermarket", JStr "Netto")]; JObj []].
Proof.
  split; [reflexivity|].
  apply (proj1 (filteredInterviews_empty_query ascii_to_lower eq_refl _) _ eq_refl).
  constructor; [eexists; reflexivity|constructor; [eexists; reflexivity|constructor]].
Defined.

(** *** The login form and the session of [App] *)


(** X9: a successful login stores [String(...)] of the token, the email
    and the level under the three session keys (other keys kept), and
    after a reload [App] mounts on the dashboard exactly when the stored
    token and email are non-empty; a missing token is stored as
    "undefined", which counts as present. *)
Theorem login_stores_session (w : lworld) (st : Z) (data : jsval)
    (Hst : (200 <= st <= 299)%Z) (Hnn : data <> JNull) (Hnu : data <> JUndef) :
  let w' := run_landing w (handleSubmit (lw_page w) (Http st (Some data))) in
  let tok := js_to_string (opt_prop data "access_token") in
  let mail := js_to_string (opt_prop data "email") in
  lw_storage w' = <["access_level" := js_to_string (opt_prop data "access_level")]>
                    (<["user_email" := mail]> (<["access_token" := tok]> (lw_storage w))) /\
  (mount_view (lw_storage w') = DashboardView <-> tok <> "" /\ mail <> "").
Proof.
  intros w' tok mail.
  assert (Hw : lw_storage w' = <["access_level" := js_to_string (opt_prop data "access_level")]>
                 (<["user_email" := mail]> (<["access_token" := tok]> (lw_storage w)))).
  { subst w'. unfold handleSubmit. rewrite range_true by exact Hst.
    rewrite !(get_prop_some data) by assumption. reflexivity. }
  split; [exact Hw|]. rewrite Hw. unfold mount_view.
  rewrite (lookup_insert_ne _ "access_level" "access_token") by discriminate.
  rewrite (lookup_insert_ne _ "user_email" "access_token") by discriminate.
  rewrite lookup_insert_eq.
  rewrite (lookup_insert_ne _ "access_level" "user_email") by discriminate.
  rewrite lookup_insert_eq. simpl.
  destruct (String.eqb_spec tok ""), (String.eqb_spec mail ""); simpl;
    split; intros H; try discriminate; try reflexivity; intuition.
Qed.

Lemma login_stores_session_witness :
  mount_view (lw_storage (run_landing (mkLWorld ∅ [] [] 0 (mkLanding "a@b.dk" "kode" false (JStr "")))
     (handleSubmit (mkLanding "a@b.dk" "kode" false (JStr ""))
        (Http 200 (Some (JObj [("email", JStr "a@b.dk")])))))) = DashboardView.
Proof.
  apply (proj2 (proj2 (login_stores_session
     (mkLWorld ∅ [] [] 0 (mkLanding "a@b.dk" "kode" false (JStr ""))) 200%Z
     (JObj [("email", JStr "a@b.dk")]) ltac:(lia) ltac:(discriminate) ltac:(discriminate)))).
  split; discriminate.
Defined.

(** X10: editing rights never shrink across a reload after login: when
    the user object built by [handleLogin] passes [isEditable], so does
    the user read back from localStorage; for a string level both agree. *)
Theorem reload_keeps_edit_rights (e : env) (sh : shell) (w : lworld) (st : Z) (data : jsval)
    (Hst : (200 <= st <= 299)%Z) (Hnn : data <> JNull) (Hnu : data <> JUndef) :
  let w' := run_landing w (handleSubmit (lw_page w) (Http st (Some data))) in
  let u_login := user (run_shell (e, sh) (handleLogin data)).2 in
  let u_reload := getStoredUser (lw_storage w') in
  (isEditable u_login = true -> isEditable u_reload = true) /\
  (forall lvl, opt_prop data "access_level" = JStr lvl -> isEditable u_reload = isEditable u_login).
Proof.
  intros w' u_login u_reload.
  assert (Hl : u_login = JObj [("email", opt_prop data "email");
                               ("accessLevel", opt_prop data "access_level")]).
  { subst u_login. unfold handleLogin. rewrite !(get_prop_some data) by assumption. reflexivity. }
  assert (Hr : isEditable u_reload =
                 includes (js_to_string (opt_prop data "access_level")) "Premium"
                 || includes (js_to_string (opt_prop data "access_level")) "Admin").
  { subst u_reload w'. unfold handleSubmit. rewrite range_true by exact Hst.
    rewrite !(get_prop_some data) by assumption. simpl.
    unfold getStoredUser, isEditable. simpl. rewrite lookup_insert_eq. reflexivity. }
  rewrite Hr, Hl. unfold isEditable.
  destruct (opt_prop data "access_level") as [| | | |s|xs|fs];
    cbn -[jsval_eqb includes js_to_string]; split;
    try discriminate; try (intros lvl Hlvl; discriminate); try (intros; reflexivity);
    try (intros H; exact H).
  intros H. apply orb_prop in H as [H|H]; apply existsb_eqb_In, join_includes in H;
    rewrite H; [reflexivity|apply orb_true_r].
Qed.

Lemma reload_keeps_edit_rights_witness :
  isEditable (getStoredUser (lw_storage (run_landing
     (mkLWorld ∅ [] [] 0 (mkLanding "a@b.dk" "kode" false (JStr "")))
     (handleSubmit (mkLanding "a@b.dk" "kode" false (JStr ""))
        (Http 200 (Some (JObj [("access_level", JArr [JStr "Admin"])]))))))) = true.
Proof.
  apply (proj1 (reload_keeps_edit_rights env0 init_shell
     (mkLWorld ∅ [] [] 0 (mkLanding "a@b.dk" "kode" false (JStr ""))) 200%Z
     (JObj [("access_level", JArr [JStr "Admin"])]) ltac:(lia) ltac:(discriminate)
     ltac:(discriminate))).
  reflexivity.
Defined.

(** X11: logout removes the three session keys (and only them), sends
    no request, logs the user out, and resets the four data fields to
    their initial values; [isLoading], [error] and [lastUpdated] are
    kept.  A mount check on the storage left behind finds no session. *)
Theorem handleLogout_resets (e : env) (sh : shell) :
  let w := run_shell (e, sh) handleLogout in
  storage w.1 = clearStoredAuth (storage e) /\ sent w.1 = sent e /\
  reload_requested w.1 = reload_requested e /\
  isAuthenticated w.2 = false /\ user w.2 = JNull /\
  overview (dash w.2) = overview init_app /\ themes (dash w.2) = themes init_app /\
  ratings (dash w.2) = ratings init_app /\ interviews (dash w.2) = interviews init_app /\
  isLoading (dash w.2) = isLoading (dash sh) /\ error (dash w.2) = error (dash sh) /\
  lastUpdated (dash w.2) = lastUpdated (dash sh) /\
  isAuthenticated (run_shell (w.1, init_shell) (checkAuth (storage w.1))).2 = false.
Proof.
  simpl. repeat split.
  unfold checkAuth, clearStoredAuth.
  rewrite (lookup_delete_ne _ "access_level" "access_token") by discriminate.
  rewrite (lookup_delete_ne _ "user_email" "access_token") by discriminate.
  rewrite lookup_delete_eq. reflexivity.
Qed.

(** *** [fetchThemes] *)

Lemma truthy_js_or_arr (v : jsval) : truthy (js_or v (JArr [])) = true.
Proof. unfold js_or. destruct (truthy v) eqn:E; [exact E|reflexivity]. Qed.

(** X13: the mount effect of the reader widget sends one GET
    themes/available.  On a 2xx answer whose body is not null it sets
    [availableThemes] to [data.themes || []] (always truthy), without
    touching localStorage or logging an error.  On any other answer
    (non-2xx, 401, network failure, unreadable or null body) it keeps
    [availableThemes] and logs an error. *)
Theorem fetchThemes_update (e : env) (av : jsval) (resp : http) :
  let w := run set_value (e, av) (fetchThemes resp) in
  sent w.1 = (sent e ++ [GetReq "themes/available"])%list /\
  (forall st d, resp = Http st (Some d) -> (200 <= st <= 299)%Z -> d <> JNull -> d <> JUndef ->
     w.2 = js_or (opt_prop d "themes") (JArr []) /\ truthy w.2 = true /\
     storage w.1 = storage e /\ errors_logged w.1 = errors_logged e) /\
  ((forall st d, resp = Http st (Some d) -> (200 <= st <= 299)%Z -> d = JNull \/ d = JUndef) ->
     w.2 = av /\ (errors_logged e < errors_logged w.1)%nat).
Proof.
  cbv zeta. unfold fetchThemes, apiCall. destruct resp as [st [d|]|].
  - destruct (Z.eqb_spec st 401) as [->|H401].
    + split; [reflexivity|]. split.
      * intros st' d' Heq Hr. injection Heq as <- _. lia.
      * intros _. split; [reflexivity|]. simpl. lia.
    + destruct (negb ((200 <=? st) && (st <=? 299)))%Z eqn:Hr.
      * split; [reflexivity|]. split.
        -- intros st' d' Heq Hr'. injection Heq as <- _.
           rewrite range_true in Hr by exact Hr'. discriminate.
        -- intros _. split; [reflexivity|]. simpl. lia.
      * apply negb_false_iff, range_of in Hr.
        destruct (get_prop d "themes") as [th|] eqn:Hg.
        -- split; [reflexivity|]. split.
           ++ intros st' d' Heq _ _ _. injection Heq as <- <-.
              assert (Hop : opt_prop d "themes" = th) by (unfold opt_prop; rewrite Hg; reflexivity).
              rewrite Hop. split; [reflexivity|]. split; [apply truthy_js_or_arr|].
              split; reflexivity.
           ++ intros Hf. exfalso.
              destruct (Hf st d eq_refl Hr) as [->| ->]; cbn in Hg; discriminate Hg.
        -- split; [reflexivity|]. split.
           ++ intros st' d' Heq _ Hn Hu. injection Heq as <- <-.
              rewrite get_prop_some in Hg by assumption. discriminate Hg.
           ++ intros _. split; [reflexivity|]. simpl. lia.
  - destruct (Z.eqb st 401); [|destruct (negb _)];
      (split; [reflexivity|]; split; [intros st' d' Heq; discriminate Heq|];
       intros _; split; [reflexivity|]; simpl; lia).
  - split; [reflexivity|]. split; [intros st' d' Heq; discriminate Heq|].
    intros _. split; [reflexivity|]. simpl. lia.
Qed.

(** *** [fetchAllData]: the loading flag and a 401 in the batch *)

(** X14: with [showLoading] the dashboard spinner is on exactly while the
    batch is pending (some request unanswered and none rejected) and off
    once [Promise.all] settles either way; a background refresh
    ([showLoading] false) never touches it. *)
Theorem fetchAllData_loading (s : bool) (now : jsval) (e : env) (a : app) (xs : list (nat * http)) :
  isLoading (run_app (e, a) (fetchAllData s now xs)).2 =
  if s then match promise_all [] (outcomes xs) with BPending => true | _ => false end
  else isLoading a.
Proof.
  unfold run_app. rewrite run_state. unfold fetchAllData.
  rewrite !upds_app, (proj1 (settle_upds s now [] xs)), !fold_left_app.
  destruct (promise_all [] (outcomes xs)) as [|acc|].
  - destruct s; reflexivity.
  - rewrite fulfilled_cont_loading. destruct s; reflexivity.
  - rewrite rejected_cont_loading. destruct s; reflexivity.
Qed.

(** X15: when any of the four dashboard requests is answered with 401,
    whatever the other answers and their order, the batch ends with the
    three session keys removed and a reload requested, after which [App]
    mounts on the login page. *)
Theorem fetchAllData_401_clears (s : bool) (now : jsval) (e : env) (a : app)
    (xs : list (nat * http)) (i : nat) (b : option jsval) (H401 : In (i, Http 401 b) xs) :
  let w := run_app (e, a) (fetchAllData s now xs) in
  storage w.1 !! "access_token" = None /\ storage w.1 !! "user_email" = None /\
  storage w.1 !! "access_level" = None /\ reload_requested w.1 = true /\
  mount_view (storage w.1) = LandingView.
Proof.
  assert (Hin : forall g, (g = GClearAuth \/ g = GReload) -> In (Eff g) (fetchAllData s now xs)).
  { intros g Hg. unfold fetchAllData. rewrite !in_app_iff. right; right; right.
    exact (settle_401 s now xs i b H401 false [] g Hg). }
  unfold run_app.
  destruct (run_clear_auth apply_aupd (e, a) _ (Hin GClearAuth (or_introl eq_refl)))
    as (H1 & H2 & H3).
  split; [exact H1|]. split; [exact H2|]. split; [exact H3|].
  split; [exact (run_reload apply_aupd (e, a) _ (Hin GReload (or_intror eq_refl)))|].
  unfold mount_view. rewrite H1. reflexivity.
Qed.

Lemma fetchAllData_401_clears_witness :
  mount_view (storage (run_app (env0, init_app)
    (fetchAllData true JNull [(1%nat, Http 401 None); (0%nat, Http 200 (Some (JObj [])))])).1)
  = LandingView.
Proof.
  exact (proj2 (proj2 (proj2 (proj2 (fetchAllData_401_clears true JNull env0 init_app
    [(1%nat, Http 401 None); (0%nat, Http 200 (Some (JObj [])))] 1%nat None
    ltac:(left; reflexivity)))))).
Defined.

(** *** [SegmentDisplay]: edit and tag controls *)

Lemma In_b_editing (s : segment) (l : list segment) (r : reader) :
  In_b s l = true -> editingSegment r = seg_id s -> strict_eq (seg_id s) (seg_id s) = true ->
  existsb (is_editing r) l = true.
Proof.
  unfold In_b. intros H He Hp. apply existsb_exists in H as (t & Ht & Heq).
  apply existsb_exists. exists t. split; [exact Ht|].
  unfold seg_eqb in Heq. do 5 (apply andb_prop in Heq as [Heq _]).
  apply jsval_eqb_sound in Heq. unfold is_editing. rewrite He, <- Heq. exact Hp.
Qed.

(** X16: starting an edit, typing any number of times and cancelling
    leaves the widget exactly as it was (no edit in progress, empty
    buffer) and sends nothing; the edited segment's id must be a
    primitive value, compared with [===]. *)
Theorem edit_cancel_roundtrip (user : jsval) (e : env) (r : reader) (s : segment)
    (vs : list string)
    (Hidle : editingSegment r = JNull) (Hbuf : editText r = JStr "")
    (Hprim : strict_eq (seg_id s) (seg_id s) = true)
    (Hstart : react user r (StartEdit s) <> None) :
  run_actions user (e, r) ([StartEdit s] ++ map TypeEdit vs ++ [CancelEdit s])%list = (e, r).
Proof.
  destruct r as [sel ft lt ed et tg]. simpl in Hidle, Hbuf. subst ed et.
  unfold react in Hstart. cbv beta iota zeta in Hstart.
  match type of Hstart with context [if ?c then _ else _] => destruct c eqn:Hcond end;
    [|contradiction Hstart; reflexivity].
  clear Hstart. apply andb_prop in Hcond as [Hbtn Hne].
  pose proof Hbtn as Hin. do 2 (apply andb_prop in Hin as [Hin _]).
  assert (Hbtn' : forall x y, In_b s (rendered_segments (mkReader sel ft lt x y tg))
            && (isEditable user && truthy (seg_editable s)) && truthy (seg_editable s) = true)
    by (intros; exact Hbtn).
  assert (Htype : forall t, exists t', fold_left (step user) (map TypeEdit vs)
            (e, mkReader sel ft lt (seg_id s) t tg) = (e, mkReader sel ft lt (seg_id s) t' tg)).
  { induction vs as [|v vs IH]; intros t; [exists t; reflexivity|].
    cbn [map fold_left].
    assert (Hs : step user (e, mkReader sel ft lt (seg_id s) t tg) (TypeEdit v)
                 = (e, mkReader sel ft lt (seg_id s) (JStr v) tg)).
    { unfold step. cbn [snd react].
      rewrite (In_b_editing s (rendered_segments (mkReader sel ft lt (seg_id s) t tg))
                 (mkReader sel ft lt (seg_id s) t tg) Hin eq_refl Hprim).
      reflexivity. }
    rewrite Hs. apply IH. }
  unfold run_actions. rewrite !fold_left_app. cbn [fold_left].
  assert (Hs : step user (e, mkReader sel ft lt JNull (JStr "") tg) (StartEdit s)
               = (e, mkReader sel ft lt (seg_id s) (js_or (edited_text s) (text s)) tg)).
  { unfold step. cbn [snd react]. rewrite Hbtn', Hne. reflexivity. }
  rewrite Hs. destruct (Htype (js_or (edited_text s) (text s))) as [t' Ht']. rewrite Ht'.
  unfold step. cbn [snd react]. rewrite Hbtn'. unfold is_editing. cbn [editingSegment].
  rewrite Hprim.
  reflexivity.
Qed.

Lemma edit_cancel_roundtrip_witness :
  run_actions (user_with_level "Premium") (env0, reader7)
    ([StartEdit seg3] ++ map TypeEdit ["Godt udvalg af frugt"] ++ [CancelEdit seg3])%list
  = (env0, reader7).
Proof.
  exact (edit_cancel_roundtrip (user_with_level "Premium") env0 reader7 seg3
    ["Godt udvalg af frugt"] eq_refl eq_refl eq_refl ltac:(vm_compute; discriminate)).
Defined.

(** X17: clicking a segment's tag button twice, starting from a closed
    panel: the first click opens that panel, and the second closes it
    again, leaving every other panel and the rest of the widget as it
    was; no request is sent. *)
Theorem toggle_twice_roundtrip (user : jsval) (e : env) (r : reader) (s : segment)
    (Hclosed : is_tag_open r s = false) (Hon : react user r (ToggleTag s) <> None) :
  is_tag_open (run_actions user (e, r) [ToggleTag s]).2 s = true /\
  run_actions user (e, r) [ToggleTag s; ToggleTag s] = (e, r).
Proof.
  destruct r as [sel ft lt ed et tg].
  unfold react in Hon. cbv beta iota zeta in Hon.
  match type of Hon with context [if ?c then _ else _] => destruct c eqn:Hcond end;
    [|contradiction Hon; reflexivity].
  clear Hon. unfold is_tag_open in Hclosed. cbn [tag_open] in Hclosed.
  assert (Hcond' : forall l, In_b s (rendered_segments (mkReader sel ft lt ed et l))
            && (isEditable user && truthy (seg_editable s)) && truthy (seg_editable s)
            && negb (is_editing (mkReader sel ft lt ed et l) s) = true)
    by (intros; exact Hcond).
  assert (H1 : step user (e, mkReader sel ft lt ed et tg) (ToggleTag s)
               = (e, mkReader sel ft lt ed et (seg_id s :: tg))).
  { unfold step. cbn [snd react]. rewrite Hcond'. unfold is_tag_open. cbn [tag_open].
    rewrite Hclosed.
    transitivity (e, mkReader sel ft lt ed et (set_open (seg_id s) true tg)); [reflexivity|].
    unfold set_open. simpl. rewrite set_open_closed by exact Hclosed. reflexivity. }
  assert (H2 : step user (e, mkReader sel ft lt ed et (seg_id s :: tg)) (ToggleTag s)
               = (e, mkReader sel ft lt ed et tg)).
  { unfold step. cbn [snd react]. rewrite Hcond'. unfold is_tag_open. cbn [tag_open existsb].
    rewrite jsval_eqb_refl.
    transitivity (e, mkReader sel ft lt ed et (set_open (seg_id s) false (seg_id s :: tg)));
      [reflexivity|].
    unfold set_open. simpl. rewrite jsval_eqb_refl. simpl.
    rewrite set_open_closed by exact Hclosed. reflexivity. }
  unfold run_actions. cbn [fold_left]. rewrite H1, H2. split; [|reflexivity].
  unfold is_tag_open. cbn [snd tag_open existsb]. rewrite jsval_eqb_refl. reflexivity.
Qed.

Lemma toggle_twice_roundtrip_witness :
  run_actions (user_with_level "Premium") (env0, reader7) [ToggleTag seg3; ToggleTag seg3]
  = (env0, reader7).
Proof.
  exact (proj2 (toggle_twice_roundtrip (user_with_level "Premium") env0 reader7 seg3
    eq_refl ltac:(vm_compute; discriminate))).
Defined.
